(** * nextjs-trpc-boilerplate: authentication middleware and permission guard

    A shallow embedding of
      - [server/auth/jwt.ts], the token decoder;
      - [server/auth/procedures.ts], the tRPC entry middlewares, in its two
        revisions: the router-level one ([protectedProcedure] and
        [permissionProcedure]) and the service/DAO-level one
        ([protectedProcedure] alone); both follow [server/cluster.ts] in
        the source tree;
      - [server/services/user.dao.ts] and [database.service.ts], the
        guarded data-access methods;
      - [server/services/user.service.ts], the in-memory user service, and
        the routers that call it ([routers/users.ts],
        [routers/secured-example.ts]);
      - [server/init.ts], the start-up of the services;
    together with the properties of the permission pattern they implement.

    JavaScript values are modelled as the code meets them: strings as
    [string], arrays of strings as [list string], an optional field or an
    [undefined]/[null] result as [option], a key that may be missing or
    hold [undefined] as an [option] of an [option], a plain object used as
    a dictionary as stdpp's [gmap string _].  [ctx.headers] is what the
    callers of the middlewares put there, see [CtxHeaders].  A rejected
    promise or a thrown exception is the [Throw] case of [Result]. *)

From Stdlib Require Import String Ascii List Bool ZArith NArith DecimalString DecimalN.
From stdpp Require Import base option list strings gmap.

Import ListNotations.
Local Open Scope string_scope.

(** ** JavaScript primitives used by the sources *)

Module JS.

(** [s.split(' ')]: the pieces of [s] between occurrences of the
    separator character; an empty input gives one empty piece. *)
Fixpoint split (sep : ascii) (s : string) : list string :=
  match s with
  | EmptyString => [EmptyString]
  | String c rest =>
      if Ascii.eqb c sep then EmptyString :: split sep rest
      else match split sep rest with
           | piece :: pieces => String c piece :: pieces
           | [] => [String c EmptyString]
           end
  end.

(** Following the spec's words, "split on whitespace": the pieces of [s]
    between whitespace characters (tab, line feed, vertical tab, form feed,
    carriage return, space).  To be compared with [split] at the space
    character, which is what the decoder calls. *)
Fixpoint splitWhitespace (s : string) : list string :=
  match s with
  | EmptyString => [EmptyString]
  | String c rest =>
      if Ascii.is_space c then EmptyString :: splitWhitespace rest
      else match splitWhitespace rest with
           | piece :: pieces => String c piece :: pieces
           | [] => [String c EmptyString]
           end
  end.

(** Every character of [s] satisfies [p]. *)
Fixpoint all_chars (p : ascii → bool) (s : string) : bool :=
  match s with
  | EmptyString => true
  | String c rest => p c && all_chars p rest
  end.

Definition noWhitespace (s : string) : bool :=
  all_chars (λ c, negb (Ascii.is_space c)) s.

(** [xs.join(sep)] *)
Fixpoint join (sep : string) (xs : list string) : string :=
  match xs with
  | [] => EmptyString
  | [x] => x
  | x :: rest => String.append x (String.append sep (join sep rest))
  end.

(** [xs.includes(x)] on an array of strings (SameValueZero on strings is
    string equality). *)
Definition includes (xs : list string) (x : string) : bool :=
  existsb (String.eqb x) xs.

(** [xs.every(p)] *)
Definition every {A} (xs : list A) (p : A → bool) : bool := forallb p xs.

(** Truthiness of a value of type [string | undefined]. *)
Definition truthy (v : option string) : bool :=
  match v with
  | Some s => negb (String.eqb s EmptyString)
  | None => false
  end.

(** [v || d] for [v : string | undefined]. *)
Definition or_default (v : option string) (d : string) : string :=
  match v with
  | Some s => if String.eqb s EmptyString then d else s
  | None => d
  end.

(** A [string | undefined] value seen through a truthiness test:
    [undefined] and the empty string are falsy, [v || null] keeps the
    truthy strings only. *)
Definition or_null (v : option string) : option string :=
  match v with
  | Some s => if String.eqb s EmptyString then None else Some s
  | None => None
  end.

(** [msg] mentions [p]: [p] occurs in [msg] as a contiguous piece. *)
Definition mentions (msg p : string) : Prop :=
  ∃ before after, msg = String.append before (String.append p after).

End JS.

(** ** Exceptions and promise outcomes *)

Inductive TRPCErrorCode :=
  | UNAUTHORIZED | FORBIDDEN | BAD_REQUEST | NOT_FOUND.

(** What a [throw] carries: a [TRPCError], an error raised inside
    [jsonwebtoken] (signature, format, expiry), the [TypeError] of the
    runtime, one of the two failures of the permission-guard package, or
    any other error. *)
Inductive Exn :=
  | TRPCError (code : TRPCErrorCode) (message : string)
  | JsonWebTokenError (message : string)
  | TypeError
  | GuardUnauthenticated
  | GuardAccessDenied (missing : list string)
  | OtherError (message : string).

Inductive Result (A : Type) :=
  | Ok (value : A)
  | Throw (e : Exn).
Arguments Ok {A} value.
Arguments Throw {A} e.

(** [try { body } catch (error) { handler }] *)
Definition try_catch {A} (body : Result A) (handler : Exn → Result A) : Result A :=
  match body with
  | Ok v => Ok v
  | Throw e => handler e
  end.

Definition bindR {A B} (r : Result A) (k : A → Result B) : Result B :=
  match r with
  | Ok v => k v
  | Throw e => Throw e
  end.

(** ** src/server/auth/jwt.ts *)

(** [interface TokenPayload]; a field missing from the decoded token reads
    as [undefined], also the one declared mandatory. *)
Record TokenPayload := {
  userId : option string;
  email : option string;
  permissions : option (list string)
}.

(** A header value of [Record<string, string | string[]>]. *)
Inductive HeaderValue :=
  | HString (s : string)
  | HArray (ss : list string).

Section Jwt.

(** [jwt.verify(token, secret)] of the [jsonwebtoken] package: the
    decoded payload, or a thrown error. *)
Variable jwt_verify : string → string → Result TokenPayload.

(** [process.env.JWT_SECRET] *)
Variable JWT_SECRET : option string.

Definition secret : string := JS.or_default JWT_SECRET "your-secret-key".

Definition parseAuthHeader (authHeader : option string) : Result (option TokenPayload) :=
  if negb (JS.truthy authHeader) then Ok None
  else
    let parts := JS.split " "%char (default EmptyString authHeader) in
    if bool_decide (length parts ≠ 2) || bool_decide (parts !! 0 ≠ Some "Bearer")
    then Ok None
    else
      match parts !! 1 with
      | Some token =>
          try_catch
            (bindR (jwt_verify token secret) (λ payload, Ok (Some payload)))
            (λ error, Ok None)
      | None => Ok None
      end.

Definition extractUserId (headers : option (gmap string HeaderValue))
  : Result (option string) :=
  match headers with
  | None => Ok None
  | Some headers =>
      match headers !! "authorization" with
      | Some (HString authHeader) =>
          bindR (parseAuthHeader (Some authHeader)) (λ payload,
            Ok (JS.or_null (payload ≫= userId)))
      | _ => Ok None
      end
  end.

Definition extractPermissions (headers : option (gmap string HeaderValue))
  : Result (list string) :=
  match headers with
  | None => Ok []
  | Some headers =>
      match headers !! "authorization" with
      | Some (HString authHeader) =>
          bindR (parseAuthHeader (Some authHeader)) (λ payload,
            Ok (default [] (payload ≫= permissions)))
      | _ => Ok []
      end
  end.

End Jwt.

(** ** Effects: the ambient context, the world, and the monad of a call *)

(** The store that [PermissionsGuard.runWithPermissions] attaches to a call
    chain. *)
Record AmbientContext := {
  principalId : string;
  granted : list string
}.

(** What a call can change: the number of times tRPC has entered a business
    handler, and the application state (users table, service fields). *)
Record World (St : Type) := {
  handlerCalls : nat;
  app : St
}.
Arguments handlerCalls {St} w.
Arguments app {St} w.

(** A computation of one call chain reads the ambient context of its chain,
    threads the world, and resolves or rejects. *)
Definition M (St A : Type) : Type :=
  option AmbientContext → World St → Result A * World St.

Definition ret {St A} (v : A) : M St A := λ _ w, (Ok v, w).

Definition throw {St A} (e : Exn) : M St A := λ _ w, (Throw e, w).

Definition bind {St A B} (m : M St A) (k : A → M St B) : M St B :=
  λ amb w,
    match m amb w with
    | (Ok v, w') => k v amb w'
    | (Throw e, w') => (Throw e, w')
    end.

(** A synchronous helper called from an [async] function: its exception
    rejects the promise. *)
Definition liftR {St A} (r : Result A) : M St A := λ _ w, (r, w).

Notation "'let*' x ':=' m 'in' k" := (bind m (λ x, k))
  (at level 10, x name, m at level 100, k at level 200).

(** ** The permission-guard package *)

Module PermissionsGuard.

(** Modelled from the spec: the [@david.uhlir/permissions-guard] package
    is a dependency and its code is not among the sources.  Section 4.2:
    [establish(principalId, permissions, callback)] runs [callback] so
    that, for its whole dynamic extent, [current()] returns the pair; an
    establishment nested in another shadows it for the nested scope only. *)
Definition runWithPermissions {St A} (permissions : list string) (userId : string)
    (callback : unit → M St A) : M St A :=
  λ _ w, callback tt (Some {| principalId := userId; granted := permissions |}) w.

(** Modelled from the spec: section 4.2, [current()] is the innermost
    active context, or absent outside any scope. *)
Definition current {St} : M St (option AmbientContext) := λ amb w, (Ok amb, w).

(** Modelled from the spec: section 4.4, [require(requiredPermissions)]
    reads the ambient context, signals "unauthenticated" when it is
    absent and "access-denied" naming the missing permissions when one
    of the required strings is not granted, and returns otherwise. *)
Definition checkRequiredPermissions {St} (requiredPermissions : list string) : M St unit :=
  let* context := current in
  match context with
  | None => throw GuardUnauthenticated
  | Some c =>
      let missing := filter (λ perm, perm ∉ granted c) requiredPermissions in
      match missing with
      | [] => ret tt
      | _ => throw (GuardAccessDenied missing)
      end
  end.

End PermissionsGuard.

(** ** tRPC plumbing *)

(** A [Headers] object of the Fetch API, as its iteration yields it. *)
Definition Headers := list (string * HeaderValue).

(** What [ctx.headers] holds: nothing ([undefined], as in the tests), a
    [Headers] object of the Fetch API (the type that context.ts declares),
    or the plain object of headers of a Node request, which the Next.js and
    Express entry points hand over ([req.headers], or [{}] without a
    request) and which cannot be iterated. *)
Inductive CtxHeaders :=
  | NoHeaders
  | FetchHeaders (entries : Headers)
  | PlainHeaders (record : gmap string HeaderValue).

(** [Object.fromEntries(headers)]: later entries overwrite earlier ones. *)
Definition fromEntries (entries : Headers) : gmap string HeaderValue :=
  foldl (λ o kv, <[kv.1 := kv.2]> o) ∅ entries.

(** The fields of the tRPC context that the middlewares read or write
    ([createContext] in context.ts); the service handles are left out. *)
Record Ctx := {
  headers : CtxHeaders;
  ctx_userId : option string;
  ctx_permissions : option (list string)
}.

(** [ctx.headers ? Object.fromEntries(ctx.headers) : undefined]: the record
    of the entries of an iterable; [Object.fromEntries] throws a
    [TypeError] on an object that cannot be iterated. *)
Definition headersRecord (ctx : Ctx) : Result (option (gmap string HeaderValue)) :=
  match headers ctx with
  | NoHeaders => Ok None
  | FetchHeaders entries => Ok (Some (fromEntries entries))
  | PlainHeaders _ => Throw TypeError
  end.

Definition UNAUTHORIZED_error : Exn :=
  TRPCError UNAUTHORIZED "No authentication token provided".

(** tRPC's [next]: enters the business handler of the procedure, with the
    context the middleware hands over. *)
Definition next {St Data} (handler : Ctx → M St Data) (ctx : Ctx) : M St Data :=
  λ amb w, handler ctx amb {| handlerCalls := S (handlerCalls w); app := app w |}.

(** ** src/server/auth/procedures.ts, router-level revision

    [protectedProcedure] only authenticates; [permissionProcedure] also
    checks a declared list of permissions and wraps the handler in the
    ambient context. *)

Module RouterLevel.
Section Procedures.

Variable jwt_verify : string → string → Result TokenPayload.
Variable JWT_SECRET : option string.
Context {St Data : Type}.

Definition protectedProcedure (ctx : Ctx) (next : Ctx → M St Data) : M St Data :=
  let* record := liftR (headersRecord ctx) in
  let* userId := liftR (extractUserId jwt_verify JWT_SECRET record) in
  match JS.or_null userId with
  | None => throw UNAUTHORIZED_error
  | Some userId =>
      next {| headers := headers ctx;
              ctx_userId := Some userId;
              ctx_permissions := ctx_permissions ctx |}
  end.

(** The check of [permissionProcedure] on the decoded permissions:
    [requiredPermissions.every((perm) => permissions.includes(perm))]. *)
Definition hasPermission (requiredPermissions permissions : list string) : bool :=
  JS.every requiredPermissions (λ perm, JS.includes permissions perm).

Definition FORBIDDEN_error (requiredPermissions : list string) : Exn :=
  TRPCError FORBIDDEN
    (String.append "Missing required permissions: " (JS.join ", " requiredPermissions)).

(** The guard of [permissionProcedure]: the statements between the
    authentication test and the call of [runWithPermissions]. *)
Definition guard (requiredPermissions permissions : list string) : M St unit :=
  if negb (hasPermission requiredPermissions permissions)
  then throw (FORBIDDEN_error requiredPermissions)
  else ret tt.

Definition permissionProcedure (requiredPermissions : list string)
    (ctx : Ctx) (next : Ctx → M St Data) : M St Data :=
  let* record := liftR (headersRecord ctx) in
  let* userId := liftR (extractUserId jwt_verify JWT_SECRET record) in
  let* record := liftR (headersRecord ctx) in
  let* permissions := liftR (extractPermissions jwt_verify JWT_SECRET record) in
  match JS.or_null userId with
  | None => throw UNAUTHORIZED_error
  | Some userId =>
      let* _ := guard requiredPermissions permissions in
      PermissionsGuard.runWithPermissions permissions userId (λ _,
        next {| headers := headers ctx;
                ctx_userId := Some userId;
                ctx_permissions := Some permissions |})
  end.

(** [withPermissions(userId, permissions, callback)] *)
Definition withPermissions (userId : string) (permissions : list string)
    (callback : unit → M St Data) : M St Data :=
  PermissionsGuard.runWithPermissions permissions userId callback.

End Procedures.
End RouterLevel.

(** ** src/server/auth/procedures.ts, service/DAO-level revision

    [protectedProcedure] authenticates and wraps the handler in the ambient
    context; permissions are checked by the services and DAOs. *)

Module ServiceLevel.
Section Procedures.

Variable jwt_verify : string → string → Result TokenPayload.
Variable JWT_SECRET : option string.
Context {St Data : Type}.

Definition protectedProcedure (ctx : Ctx) (next : Ctx → M St Data) : M St Data :=
  let* record := liftR (headersRecord ctx) in
  let* userId := liftR (extractUserId jwt_verify JWT_SECRET record) in
  let* record := liftR (headersRecord ctx) in
  let* permissions := liftR (extractPermissions jwt_verify JWT_SECRET record) in
  match JS.or_null userId with
  | None => throw UNAUTHORIZED_error
  | Some userId =>
      PermissionsGuard.runWithPermissions permissions userId (λ _,
        next {| headers := headers ctx;
                ctx_userId := Some userId;
                ctx_permissions := Some permissions |})
  end.

End Procedures.
End ServiceLevel.

(** ** src/server/services/database.service.ts and user.dao.ts *)

(** A row of the users table. *)
Record User := {
  user_id : string;
  user_name : string;
  user_email : string
}.

(** The [data] argument of [UserDAO.update]. *)
Record UserUpdate := {
  new_name : option string;
  new_email : option string
}.

(** The state behind the DAO: whether [DatabaseService] has instantiated its
    Prisma client, and the database the client talks to. *)
Record AppState (DB : Type) := {
  prisma : bool;
  database : DB
}.
Arguments prisma {DB} a.
Arguments database {DB} a.

Module UserDAO.
Section Dao.

(** The database and the queries of the Prisma client on the [user]
    model: each may change the database and may reject. *)
Variable DB : Type.
Variable user_create : string → string → DB → Result User * DB.
Variable user_findUnique_id : string → DB → Result (option User) * DB.
Variable user_findUnique_email : string → DB → Result (option User) * DB.
Variable user_findMany : DB → Result (list User) * DB.
Variable user_update : string → UserUpdate → DB → Result User * DB.
Variable user_delete : string → DB → Result User * DB.

Local Abbreviation Dao := (M (AppState DB)).

(** [DatabaseService.getPrisma()]: instantiates the client on first use. *)
Definition getPrisma : Dao unit :=
  λ _ w, (Ok tt, {| handlerCalls := handlerCalls w;
                    app := {| prisma := true; database := database (app w) |} |}).

(** Running one query of the client. *)
Definition query {A} (q : DB → Result A * DB) : Dao A :=
  λ _ w,
    let (r, d) := q (database (app w)) in
    (r, {| handlerCalls := handlerCalls w;
           app := {| prisma := prisma (app w); database := d |} |}).

Definition create (name email : string) : Dao User :=
  let* _ := PermissionsGuard.checkRequiredPermissions ["user/create"] in
  let* _ := getPrisma in
  query (user_create name email).

Definition findById (id : string) : Dao (option User) :=
  let* _ := getPrisma in
  query (user_findUnique_id id).

Definition findByEmail (email : string) : Dao (option User) :=
  let* _ := getPrisma in
  query (user_findUnique_email email).

Definition findAll : Dao (list User) :=
  let* _ := PermissionsGuard.checkRequiredPermissions ["user/read"] in
  let* _ := getPrisma in
  query user_findMany.

Definition update (id : string) (data : UserUpdate) : Dao User :=
  let* _ := PermissionsGuard.checkRequiredPermissions ["user/write"] in
  let* _ := getPrisma in
  query (user_update id data).

Definition delete (id : string) : Dao (option User) :=
  let* _ := PermissionsGuard.checkRequiredPermissions ["user/delete"] in
  let* _ := getPrisma in
  let* user := query (user_findUnique_id id) in
  match user with
  | None => ret None
  | Some _ =>
      let* deleted := query (user_delete id) in
      ret (Some deleted)
  end.

End Dao.
End UserDAO.

(** ** More JavaScript: numbers as counters, and [Map] *)

Module JSNumber.

(** The largest value an integer counter held in a [number] can reach by
    increments of one: 2^53. *)
Definition limit : N := 9007199254740992.

(** [n++] on a [number] that holds an integer between 0 and 2^53, the
    values a counter started at 1 and only incremented can take: the sum is
    exact below 2^53, and 2^53 + 1 rounds back to 2^53. *)
Definition increment (n : N) : N :=
  if (n <? limit)%N then (n + 1)%N else n.

(** [String(n)] for such an integer: its decimal digits. *)
Definition toString (n : N) : string :=
  NilEmpty.string_of_uint (N.to_uint n).

End JSNumber.

(** A [Map<string, V>]: its entries in insertion order, one per key. *)
Module JSMap.
Section Map.

Context {V : Type}.

(** [m.get(k)] *)
Fixpoint get (m : list (string * V)) (k : string) : option V :=
  match m with
  | [] => None
  | (k', v) :: rest => if String.eqb k' k then Some v else get rest k
  end.

(** [m.set(k, v)]: an existing key keeps its place, a new one goes last. *)
Fixpoint set (m : list (string * V)) (k : string) (v : V) : list (string * V) :=
  match m with
  | [] => [(k, v)]
  | (k', v') :: rest =>
      if String.eqb k' k then (k, v) :: rest else (k', v') :: set rest k v
  end.

(** [m.has(k)] *)
Definition has (m : list (string * V)) (k : string) : bool :=
  match get m k with Some _ => true | None => false end.

(** The entries left by [m.delete(k)]. *)
Definition remove (m : list (string * V)) (k : string) : list (string * V) :=
  List.filter (λ kv, negb (String.eqb kv.1 k)) m.

(** [m.values()], as [Array.from] collects them. *)
Definition values (m : list (string * V)) : list V := map snd m.

End Map.
End JSMap.

(** ** src/server/services/user.service.ts *)

Module UserService.

(** A stored [User]; [createdAt] is the time value of the [Date].  The
    interface declares [name] and [email] as strings, and an update can
    leave them [undefined] (see [merge]): they are [None] then. *)
Record User := {
  id : string;
  name : option string;
  email : option string;
  createdAt : Z
}.

(** [Partial<User>]: a field is [None] when the object has no such key,
    [Some None] when it has the key with the value [undefined] (which the
    type admits), and [Some (Some v)] when the key holds [v]. *)
Record PartialUser := {
  with_id : option (option string);
  with_name : option (option string);
  with_email : option (option string);
  with_createdAt : option (option Z)
}.

(** The two private fields of the service. *)
Record State := {
  users : list (string * User);
  idCounter : N
}.

(** The fields of a freshly constructed service. *)
Definition fresh : State := {| users := []; idCounter := 1 |}.

(** [shutdown()]; the log line is left out. *)
Definition shutdown (s : State) : State :=
  {| users := []; idCounter := idCounter s |}.

Definition getAllUsers (s : State) : list User := JSMap.values (users s).

Definition getUserById (id : string) (s : State) : option User :=
  JSMap.get (users s) id.

(** [createUser(name, email)]; [now] is what [new Date()] gives. *)
Definition createUser (now : Z) (name email : string) (s : State) : User * State :=
  let id := JSNumber.toString (idCounter s) in
  let user :=
    {| id := id; name := Some name; email := Some email; createdAt := now |} in
  (user, {| users := JSMap.set (users s) id user;
            idCounter := JSNumber.increment (idCounter s) |}).

(** [{ ...user, ...updates, id, createdAt: user.createdAt }]: the spread
    copies every key of [updates], also one whose value is [undefined];
    [id] and [createdAt] are written after it. *)
Definition merge (user : User) (updates : PartialUser) (id : string) : User :=
  {| id := id;
     name := default (name user) (with_name updates);
     email := default (email user) (with_email updates);
     createdAt := createdAt user |}.

Definition updateUser (id : string) (updates : PartialUser) (s : State)
  : option User * State :=
  match JSMap.get (users s) id with
  | None => (None, s)
  | Some user =>
      let updated := merge user updates id in
      (Some updated, {| users := JSMap.set (users s) id updated;
                        idCounter := idCounter s |})
  end.

Definition deleteUser (id : string) (s : State) : bool * State :=
  (JSMap.has (users s) id,
   {| users := JSMap.remove (users s) id; idCounter := idCounter s |}).

(** [user.email === email] *)
Definition has_email (email' : string) (user : User) : bool :=
  match email user with
  | Some e => String.eqb e email'
  | None => false
  end.

Definition findByEmail (email' : string) (s : State) : option User :=
  List.find (has_email email') (JSMap.values (users s)).

(** What the service keeps true of its fields: the map has one entry per
    key, every user is stored under its own id, every id is the decimal
    form of a number the counter has passed, and the counter is an integer
    between 1 and 2^53. *)
Definition Invariant (s : State) : Prop :=
  NoDup (users s).*1 ∧
  (∀ k u, (k, u) ∈ users s →
     id u = k ∧ ∃ n, (n < idCounter s)%N ∧ k = JSNumber.toString n) ∧
  (1 ≤ idCounter s ≤ JSNumber.limit)%N.

End UserService.

(** ** Notions used in the statements *)

(** The headers of the inbound call as a record, whichever way
    [ctx.headers] holds them. *)
Definition requestHeaders (ctx : Ctx) : option (gmap string HeaderValue) :=
  match headers ctx with
  | NoHeaders => None
  | FetchHeaders entries => Some (fromEntries entries)
  | PlainHeaders record => Some record
  end.

(** [ctx.headers] is absent or can be iterated. *)
Definition iterableHeaders (ctx : Ctx) : bool :=
  match headers ctx with
  | PlainHeaders _ => false
  | _ => true
  end.

(** The value of the [authorization] header of a call, when the call
    carries headers and the entry is a string. *)
Definition authorizationHeader (ctx : Ctx) : option string :=
  match requestHeaders ctx with
  | Some record =>
      match record !! "authorization" with
      | Some (HString authHeader) => Some authHeader
      | _ => None
      end
  | None => None
  end.

(** The header has the shape [Bearer <token>]: splitting it at the space
    character gives exactly the two parts. *)
Definition bearer (authHeader token : string) : Prop :=
  JS.split " "%char authHeader = ["Bearer"; token].

(** The context that a middleware hands to the handler. *)
Definition authenticated (ctx : Ctx) (userId : string) (permissions : option (list string)) : Ctx :=
  {| headers := headers ctx; ctx_userId := Some userId; ctx_permissions := permissions |}.

(** The permissions that are required and not granted, in the order of the
    requirement. *)
Definition missingPermissions (requiredPermissions permissions : list string) : list string :=
  filter (λ perm, perm ∉ permissions) requiredPermissions.

(** The two situations of an inbound call with respect to its credential. *)
Section Credentials.

Variable jwt_verify : string → string → Result TokenPayload.
Variable JWT_SECRET : option string.

(** An inbound call carries no usable credential: the header is absent,
    or it is not of the shape [Bearer <token>], or the token does not
    verify. *)
Inductive NoCredential (ctx : Ctx) : Prop :=
  | header_absent :
      authorizationHeader ctx = None → NoCredential ctx
  | header_malformed authHeader :
      authorizationHeader ctx = Some authHeader →
      (∀ token, ¬ bearer authHeader token) →
      NoCredential ctx
  | token_rejected authHeader token e :
      authorizationHeader ctx = Some authHeader →
      bearer authHeader token →
      jwt_verify token (secret JWT_SECRET) = Throw e →
      NoCredential ctx.

(** An inbound call carries a token that verifies and decodes to
    [payload]. *)
Definition Verified (ctx : Ctx) (payload : TokenPayload) : Prop :=
  ∃ authHeader token,
    authorizationHeader ctx = Some authHeader ∧
    bearer authHeader token ∧
    jwt_verify token (secret JWT_SECRET) = Ok payload.

End Credentials.


(** ** Concrete instances, for running the definitions *)

Module Sample.

(** A verifier that knows five tokens signed with the default secret. *)
Definition verify (token key : string) : Result TokenPayload :=
  if negb (String.eqb key "your-secret-key")
  then Throw (JsonWebTokenError "invalid signature")
  else if String.eqb token "tok.u1.sig"
  then Ok {| userId := Some "u1"; email := None; permissions := Some ["user/read"] |}
  else if String.eqb token "tok.u2.sig"
  then Ok {| userId := Some "u2"; email := None;
             permissions := Some ["user/create"; "admin"; "user/read"] |}
  else if String.eqb token "tok.u3.sig"
  then Ok {| userId := Some "u3"; email := Some "u3@example.com"; permissions := None |}
  else if String.eqb token "tok.empty.sig"
  then Ok {| userId := Some ""; email := None; permissions := Some ["admin"] |}
  else if String.eqb token "tok.none.sig"
  then Ok {| userId := None; email := None; permissions := Some ["admin"] |}
  else Throw (JsonWebTokenError "jwt malformed").

(** The context of a call whose only header is [authorization]. *)
Definition request (authHeader : string) : Ctx :=
  {| headers := FetchHeaders [("authorization", HString authHeader)];
     ctx_userId := None;
     ctx_permissions := None |}.

(** The context of a call without headers. *)
Definition bare : Ctx :=
  {| headers := NoHeaders; ctx_userId := None; ctx_permissions := None |}.

(** The context that the Node entry points build for a request with the
    given headers. *)
Definition incoming (record : gmap string HeaderValue) : Ctx :=
  {| headers := PlainHeaders record; ctx_userId := None; ctx_permissions := None |}.

Definition world0 : World unit := {| handlerCalls := 0; app := tt |}.

(** A handler that reports the ambient context it runs in. *)
Definition whoami : Ctx → M unit (option AmbientContext) :=
  λ _, PermissionsGuard.current.

(** An in-memory users table standing for the database. *)
Definition find_id (id : string) (db : list User) : option User :=
  List.find (λ u, String.eqb (user_id u) id) db.

Definition user_create (name email : string) (db : list User) : Result User * list User :=
  let u := {| user_id := email; user_name := name; user_email := email |} in
  (Ok u, (db ++ [u])%list).

Definition user_findUnique_id (id : string) (db : list User)
  : Result (option User) * list User :=
  (Ok (find_id id db), db).

Definition user_findUnique_email (email : string) (db : list User)
  : Result (option User) * list User :=
  (Ok (List.find (λ u, String.eqb (user_email u) email) db), db).

Definition user_findMany (db : list User) : Result (list User) * list User :=
  (Ok db, db).

Definition user_update (id : string) (data : UserUpdate) (db : list User)
  : Result User * list User :=
  match find_id id db with
  | None => (Throw (OtherError "Record to update not found"), db)
  | Some u =>
      let u' := {| user_id := id;
                   user_name := default (user_name u) (new_name data);
                   user_email := default (user_email u) (new_email data) |} in
      (Ok u', map (λ x, if String.eqb (user_id x) id then u' else x) db)
  end.

Definition user_delete (id : string) (db : list User) : Result User * list User :=
  match find_id id db with
  | None => (Throw (OtherError "Record to delete does not exist"), db)
  | Some u => (Ok u, List.filter (λ x, negb (String.eqb (user_id x) id)) db)
  end.

Definition alice : User :=
  {| user_id := "1"; user_name := "Alice"; user_email := "alice@example.com" |}.

Definition table0 : World (AppState (list User)) :=
  {| handlerCalls := 1; app := {| prisma := false; database := [alice] |} |}.

(** The ambient context of principal [u1], who may only read. *)
Definition reader : option AmbientContext :=
  Some {| principalId := "u1"; granted := ["user/read"] |}.

End Sample.

(** The world once a DAO method has asked the database service for its
    client and the database has become [d]. *)
Definition queried {DB : Type} (w : World (AppState DB)) (d : DB) : World (AppState DB) :=
  {| handlerCalls := handlerCalls w; app := {| prisma := true; database := d |} |}.

(** ** src/server/init.ts *)

Module Init.
Section Init.

(** The service container behind [ServicesContext], and its two calls:
    [ServicesContext.initialize([...])] with the list of services of the
    application, and [ServicesContext.waitForInit()]. *)
Variable Services : Type.
Variable ServicesContext_initialize : Services → Result unit * Services.
Variable ServicesContext_waitForInit : Services → Result unit * Services.

(** The module-level flag and the container. *)
Record State := {
  initialized : bool;
  services : Services
}.

(** [initializeServices()]; the log lines are left out. *)
Definition initializeServices (s : Services) : Result unit * Services :=
  match ServicesContext_initialize s with
  | (Ok _, s') => ServicesContext_waitForInit s'
  | (Throw e, s') => (Throw e, s')
  end.

Definition ensureServicesInitialized (st : State) : Result unit * State :=
  if negb (initialized st)
  then
    match initializeServices (services st) with
    | (Ok _, s') => (Ok tt, {| initialized := true; services := s' |})
    | (Throw e, s') => (Throw e, {| initialized := initialized st; services := s' |})
    end
  else (Ok tt, st).

Definition shutdownServices (st : State) : Result unit * State :=
  (Ok tt, {| initialized := false; services := services st |}).

End Init.
End Init.

(** ** src/server/services/database.service.ts, in full *)

Module DatabaseService.
Section Service.

(** What lies outside the process (the connections to the database), and
    the two calls of a Prisma client on it; a client is known by the rank
    of its construction. *)
Variable Outside : Type.
Variable connect : nat → Outside → Result unit * Outside.
Variable disconnect : nat → Outside → Result unit * Outside.

(** The [prisma] field, the number of clients constructed so far, and the
    outside. *)
Record State := {
  prisma : option nat;
  constructed : nat;
  outside : Outside
}.

Definition getPrisma (st : State) : nat * State :=
  match prisma st with
  | Some client => (client, st)
  | None =>
      (constructed st,
       {| prisma := Some (constructed st);
          constructed := S (constructed st);
          outside := outside st |})
  end.

(** [initialize()], with [process.env.DATABASE_URL]; the [catch] logs and
    rethrows. *)
Definition initialize (DATABASE_URL : option string) (st : State) : Result unit * State :=
  if negb (JS.truthy DATABASE_URL) then (Ok tt, st)
  else
    let (client, st1) := getPrisma st in
    let (r, o) := connect client (outside st1) in
    (r, {| prisma := prisma st1; constructed := constructed st1; outside := o |}).

Definition shutdown (st : State) : Result unit * State :=
  match prisma st with
  | Some client =>
      match disconnect client (outside st) with
      | (Ok _, o) =>
          (Ok tt, {| prisma := None; constructed := constructed st; outside := o |})
      | (Throw e, o) =>
          (Throw e, {| prisma := prisma st; constructed := constructed st; outside := o |})
      end
  | None => (Ok tt, st)
  end.

End Service.
End DatabaseService.

(** ** Services inside a call *)

(** A service method that reads the state of the service. *)
Definition reading {St A} (f : St → A) : M St A :=
  λ _ w, (Ok (f (app w)), w).

(** A service method that returns a value and leaves a new state. *)
Definition running {St A} (f : St → A * St) : M St A :=
  λ _ w, let (a, s) := f (app w) in
         (Ok a, {| handlerCalls := handlerCalls w; app := s |}).

(** ** src/server/routers/users.ts

    The handlers of the public users router, on an input that has passed
    the zod schema of its procedure. *)

Module UsersRouter.
Section Handlers.

(** What [new Date()] gives during the call. *)
Variable now : Z.

Local Abbreviation Handler := (M UserService.State).

Definition not_found (id : string) : Exn :=
  OtherError (String.append "User with id " (String.append id " not found")).

Definition already_exists (email : string) : Exn :=
  OtherError (String.append "User with email " (String.append email " already exists")).

Definition list : Handler (list UserService.User) :=
  reading UserService.getAllUsers.

Definition getById (id : string) : Handler UserService.User :=
  let* user := reading (UserService.getUserById id) in
  match user with
  | None => throw (not_found id)
  | Some user => ret user
  end.

Definition create (name email : string) : Handler UserService.User :=
  let* existing := reading (UserService.findByEmail email) in
  match existing with
  | Some _ => throw (already_exists email)
  | None => running (UserService.createUser now name email)
  end.

(** [update]: the input is [{ id, name?, email? }]; an optional key may be
    missing ([None]) or hold [undefined] ([Some None]). *)
Definition update (id : string) (name email : option (option string))
  : Handler UserService.User :=
  let updates :=
    {| UserService.with_id := None; UserService.with_name := name;
       UserService.with_email := email; UserService.with_createdAt := None |} in
  let* _ :=
    match JS.or_null (mjoin email) with
    | Some email =>
        let* existing := reading (UserService.findByEmail email) in
        match existing with
        | Some existing =>
            if negb (String.eqb (UserService.id existing) id)
            then throw (already_exists email)
            else ret tt
        | None => ret tt
        end
    | None => ret tt
    end in
  let* user := running (UserService.updateUser id updates) in
  match user with
  | None => throw (not_found id)
  | Some user => ret user
  end.

(** [delete]; the value returned is [{ success: true }]. *)
Definition delete (id : string) : Handler bool :=
  let* deleted := running (UserService.deleteUser id) in
  if negb deleted then throw (not_found id) else ret true.

End Handlers.
End UsersRouter.

(** No two stored users share an email; a user whose email an update has
    left [undefined] has none. *)
Definition UniqueEmails (s : UserService.State) : Prop :=
  NoDup (omap UserService.email (UserService.getAllUsers s)).

(** ** src/server/routers/secured-example.ts

    The handlers behind the authenticated procedures; they are the same in
    the two revisions of the router, which differ in the procedure each
    handler is attached to. *)

Module SecuredExample.
Section Handlers.

Variable now : Z.

Local Abbreviation Handler := (M UserService.State).

Record Profile := {
  profile_userId : option string;
  profile_message : string
}.

Record Created := {
  created_success : bool;
  createdBy : option string;
  created_user : UserService.User
}.

Record Listing := {
  requestedBy : option string;
  count : nat;
  listed_users : list UserService.User
}.

Record Deleted := {
  deleted_success : bool;
  deletedBy : option string;
  deletedUserId : string
}.

(** [getProfile]; the interpolation of [ctx.userId] prints an absent id as
    [undefined]. *)
Definition getProfile (ctx : Ctx) : Handler Profile :=
  ret {| profile_userId := ctx_userId ctx;
         profile_message :=
           String.append "Profile for user " (default "undefined" (ctx_userId ctx)) |}.

(** [createUser]; the fixed [message] of the reply is left out. *)
Definition createUser (name email : string) (ctx : Ctx) : Handler Created :=
  let* newUser := running (UserService.createUser now name email) in
  ret {| created_success := true; createdBy := ctx_userId ctx; created_user := newUser |}.

Definition listUsers (ctx : Ctx) : Handler Listing :=
  let* users := reading UserService.getAllUsers in
  ret {| requestedBy := ctx_userId ctx; count := length users; listed_users := users |}.

Definition deleteUser (userId : string) (ctx : Ctx) : Handler Deleted :=
  if bool_decide (Some userId = ctx_userId ctx)
  then throw (TRPCError BAD_REQUEST "Cannot delete your own account")
  else
    let* deleted := running (UserService.deleteUser userId) in
    if negb deleted
    then throw (TRPCError NOT_FOUND
                  (String.append "User " (String.append userId " not found")))
    else ret {| deleted_success := true; deletedBy := ctx_userId ctx;
                deletedUserId := userId |}.

(** The permissions each procedure of the router-level revision declares. *)
Definition createUser_permissions : list string := ["user/create"; "admin"].
Definition listUsers_permissions : list string := ["user/read"].
Definition deleteUser_permissions : list string := ["user/delete"; "admin"].

End Handlers.
End SecuredExample.

(** A service after two creations, for running the definitions. *)
Module SampleService.

Definition ann : UserService.User :=
  {| UserService.id := "1"; UserService.name := Some "Ann";
     UserService.email := Some "ann@example.com"; UserService.createdAt := 1000 |}.

Definition bob : UserService.User :=
  {| UserService.id := "2"; UserService.name := Some "Bob";
     UserService.email := Some "bob@example.com"; UserService.createdAt := 2000 |}.

Definition two : UserService.State :=
  {| UserService.users := [("1", ann); ("2", bob)]; UserService.idCounter := 3 |}.

Definition rename (name : string) : UserService.PartialUser :=
  {| UserService.with_id := None; UserService.with_name := Some (Some name);
     UserService.with_email := None; UserService.with_createdAt := None |}.

(** The update [{ name: undefined }]. *)
Definition unname : UserService.PartialUser :=
  {| UserService.with_id := None; UserService.with_name := Some None;
     UserService.with_email := None; UserService.with_createdAt := None |}.

End SampleService.

(** The world of a call that finds the two users stored. *)
Definition SampleService_world : World UserService.State :=
  {| handlerCalls := 0; app := SampleService.two |}.

(** * Properties *)

(** ** JavaScript primitives *)

Example split_bearer : JS.split " "%char "Bearer abc.def.ghi" = ["Bearer"; "abc.def.ghi"].
Proof. reflexivity. Qed.

Example split_two_spaces : JS.split " "%char "Bearer  abc" = ["Bearer"; ""; "abc"].
Proof. reflexivity. Qed.

Example split_empty : JS.split " "%char "" = [""].
Proof. reflexivity. Qed.

Example join_two : JS.join ", " ["user/create"; "admin"] = "user/create, admin".
Proof. reflexivity. Qed.

Lemma split_nonempty sep s : JS.split sep s ≠ [].
Proof.
  destruct s as [|c rest]; simpl; [discriminate|].
  destruct (Ascii.eqb c sep); [discriminate|].
  destruct (JS.split sep rest); discriminate.
Qed.

Lemma includes_elem_of xs x : JS.includes xs x = true ↔ x ∈ xs.
Proof.
  unfold JS.includes. rewrite existsb_exists, list_elem_of_In. split.
  - intros (y & Hy & Heq). apply String.eqb_eq in Heq. by subst.
  - intros Hx. exists x. split; [done|]. apply String.eqb_refl.
Qed.

Lemma or_null_Some v u : JS.or_null v = Some u ↔ v = Some u ∧ u ≠ "".
Proof.
  destruct v as [s|]; simpl.
  - destruct (String.eqb_spec s ""); split.
    + discriminate.
    + intros [[= ->] Hne]. by destruct Hne.
    + intros [= ->]. by split.
    + by intros [-> _].
  - split; [discriminate|]. by intros [? _].
Qed.

Lemma or_null_idem v : JS.or_null (JS.or_null v) = JS.or_null v.
Proof.
  destruct v as [s|]; simpl; [|done].
  destruct (String.eqb_spec s ""); simpl; [done|].
  by destruct (String.eqb_spec s "").
Qed.

(** ** The token decoder *)

Section JwtFacts.

Variable jwt_verify : string → string → Result TokenPayload.
Variable JWT_SECRET : option string.

Local Abbreviation parse := (parseAuthHeader jwt_verify JWT_SECRET).
Local Abbreviation key := (secret JWT_SECRET).

Lemma parseAuthHeader_bearer authHeader token :
  bearer authHeader token →
  parse (Some authHeader) =
    match jwt_verify token key with
    | Ok payload => Ok (Some payload)
    | Throw _ => Ok None
    end.
Proof.
  unfold bearer, parseAuthHeader. intros Hsplit.
  change (default EmptyString (Some authHeader)) with authHeader.
  rewrite Hsplit.
  destruct authHeader as [|c rest]; [discriminate|]. simpl.
  by destruct (jwt_verify token key).
Qed.

Lemma parseAuthHeader_not_bearer authHeader :
  (∀ token, ¬ bearer authHeader token) →
  parse (Some authHeader) = Ok None.
Proof.
  unfold bearer, parseAuthHeader. intros Hno.
  destruct (JS.truthy (Some authHeader)); [|done]. cbn [negb].
  change (default EmptyString (Some authHeader)) with authHeader.
  destruct (JS.split " " authHeader) as [|p0 [|p1 [|p2 parts]]]; try done.
  destruct (decide (p0 = "Bearer")) as [->|Hne].
  - by destruct (Hno p1).
  - cbn [length]. rewrite (bool_decide_eq_false_2 (2 ≠ 2)) by (intros H; by apply H).
    rewrite bool_decide_eq_true_2; [done|]. simpl. congruence.
Qed.

Lemma bearer_dec authHeader :
  {token | bearer authHeader token} + {∀ token, ¬ bearer authHeader token}.
Proof.
  unfold bearer.
  destruct (JS.split " " authHeader) as [|p0 [|p1 [|p2 parts]]];
    try (right; intros token; discriminate).
  destruct (decide (p0 = "Bearer")) as [->|Hne].
  - left. by exists p1.
  - right. intros token. congruence.
Qed.

Lemma parseAuthHeader_undefined : parse None = Ok None.
Proof. reflexivity. Qed.

End JwtFacts.

(** ** What the middlewares decode from a context *)

Section Decoding.

Variable jwt_verify : string → string → Result TokenPayload.
Variable JWT_SECRET : option string.

Local Abbreviation parse := (parseAuthHeader jwt_verify JWT_SECRET).
Local Abbreviation key := (secret JWT_SECRET).
Local Abbreviation userIdOf ctx :=
  (extractUserId jwt_verify JWT_SECRET (requestHeaders ctx)).
Local Abbreviation permissionsOf ctx :=
  (extractPermissions jwt_verify JWT_SECRET (requestHeaders ctx)).
Local Abbreviation NoCredential := (NoCredential jwt_verify JWT_SECRET).
Local Abbreviation Verified := (Verified jwt_verify JWT_SECRET).

(** [Object.fromEntries(ctx.headers)] gives the record of the call when
    the headers can be iterated, and throws otherwise. *)
Lemma headersRecord_iterable ctx :
  iterableHeaders ctx = true → headersRecord ctx = Ok (requestHeaders ctx).
Proof.
  unfold iterableHeaders, headersRecord, requestHeaders.
  by destruct (headers ctx).
Qed.

Lemma headersRecord_plain ctx :
  iterableHeaders ctx = false → headersRecord ctx = Throw TypeError.
Proof.
  unfold iterableHeaders, headersRecord.
  by destruct (headers ctx).
Qed.

Lemma extractUserId_ctx ctx :
  userIdOf ctx =
    bindR (parse (authorizationHeader ctx))
          (λ payload, Ok (JS.or_null (payload ≫= userId))).
Proof.
  unfold extractUserId, authorizationHeader.
  destruct (requestHeaders ctx) as [record|]; [|done].
  destruct (record !! "authorization") as [[authHeader|ss]|]; done.
Qed.

Lemma extractPermissions_ctx ctx :
  permissionsOf ctx =
    bindR (parse (authorizationHeader ctx))
          (λ payload, Ok (default [] (payload ≫= permissions))).
Proof.
  unfold extractPermissions, authorizationHeader.
  destruct (requestHeaders ctx) as [record|]; [|done].
  destruct (record !! "authorization") as [[authHeader|ss]|]; done.
Qed.

Lemma NoCredential_parse ctx :
  NoCredential ctx → parse (authorizationHeader ctx) = Ok None.
Proof.
  intros [Habs | h Hh Hno | h token e Hh Hb Hv]; rewrite ?Habs, ?Hh.
  - reflexivity.
  - by apply parseAuthHeader_not_bearer.
  - rewrite (parseAuthHeader_bearer _ _ _ _ Hb). by rewrite Hv.
Qed.

Lemma Verified_parse ctx payload :
  Verified ctx payload → parse (authorizationHeader ctx) = Ok (Some payload).
Proof.
  intros (h & token & Hh & Hb & Hv). rewrite Hh.
  rewrite (parseAuthHeader_bearer _ _ _ _ Hb). by rewrite Hv.
Qed.

(** Every call is in exactly one of the two situations. *)
Lemma credential_cases ctx :
  NoCredential ctx ∨ ∃ payload, Verified ctx payload.
Proof.
  destruct (authorizationHeader ctx) as [h|] eqn:Hh; [|left; by apply header_absent].
  destruct (bearer_dec h) as [[token Hb]|Hno].
  - destruct (jwt_verify token key) as [payload|e] eqn:Hv.
    + right. exists payload, h, token. done.
    + left. by eapply token_rejected.
  - left. by eapply header_malformed.
Qed.

Lemma NoCredential_userId ctx :
  NoCredential ctx → userIdOf ctx = Ok None.
Proof.
  intros H. rewrite extractUserId_ctx, (NoCredential_parse _ H). done.
Qed.

Lemma NoCredential_permissions ctx :
  NoCredential ctx → permissionsOf ctx = Ok [].
Proof.
  intros H. rewrite extractPermissions_ctx, (NoCredential_parse _ H). done.
Qed.

Lemma Verified_userId ctx payload :
  Verified ctx payload → userIdOf ctx = Ok (JS.or_null (userId payload)).
Proof.
  intros H. rewrite extractUserId_ctx, (Verified_parse _ _ H). done.
Qed.

Lemma Verified_permissions ctx payload :
  Verified ctx payload → permissionsOf ctx = Ok (default [] (permissions payload)).
Proof.
  intros H. rewrite extractPermissions_ctx, (Verified_parse _ _ H). done.
Qed.

End Decoding.

(** ** The three entry middlewares, case by case *)

Section Middlewares.

Variable jwt_verify : string → string → Result TokenPayload.
Variable JWT_SECRET : option string.
Context {St Data : Type}.

Local Abbreviation NoCredential := (NoCredential jwt_verify JWT_SECRET).
Local Abbreviation Verified := (Verified jwt_verify JWT_SECRET).

Implicit Types (ctx : Ctx) (nxt : Ctx → M St Data) (w : World St)
  (amb : option AmbientContext) (payload : TokenPayload).

Ltac run_middleware :=
  unfold RouterLevel.protectedProcedure, RouterLevel.permissionProcedure,
    ServiceLevel.protectedProcedure, bind, liftR.

(** On headers that cannot be iterated each middleware throws at its
    first statement, before it decodes anything. *)
Lemma router_protected_plain ctx nxt amb w :
  iterableHeaders ctx = false →
  RouterLevel.protectedProcedure jwt_verify JWT_SECRET ctx nxt amb w
    = (Throw TypeError, w).
Proof. intros H. run_middleware. by rewrite (headersRecord_plain _ H). Qed.

Lemma router_permission_plain required ctx nxt amb w :
  iterableHeaders ctx = false →
  RouterLevel.permissionProcedure jwt_verify JWT_SECRET required ctx nxt amb w
    = (Throw TypeError, w).
Proof. intros H. run_middleware. by rewrite (headersRecord_plain _ H). Qed.

Lemma service_protected_plain ctx nxt amb w :
  iterableHeaders ctx = false →
  ServiceLevel.protectedProcedure jwt_verify JWT_SECRET ctx nxt amb w
    = (Throw TypeError, w).
Proof. intros H. run_middleware. by rewrite (headersRecord_plain _ H). Qed.

Lemma router_protected_rejects ctx nxt amb w :
  iterableHeaders ctx = true →
  NoCredential ctx →
  RouterLevel.protectedProcedure jwt_verify JWT_SECRET ctx nxt amb w
    = (Throw UNAUTHORIZED_error, w).
Proof.
  intros Hit H. run_middleware.
  by rewrite (headersRecord_iterable _ Hit), (NoCredential_userId _ _ _ H).
Qed.

Lemma router_permission_rejects required ctx nxt amb w :
  iterableHeaders ctx = true →
  NoCredential ctx →
  RouterLevel.permissionProcedure jwt_verify JWT_SECRET required ctx nxt amb w
    = (Throw UNAUTHORIZED_error, w).
Proof.
  intros Hit H. run_middleware.
  by rewrite (headersRecord_iterable _ Hit),
    (NoCredential_userId _ _ _ H), (NoCredential_permissions _ _ _ H).
Qed.

Lemma service_protected_rejects ctx nxt amb w :
  iterableHeaders ctx = true →
  NoCredential ctx →
  ServiceLevel.protectedProcedure jwt_verify JWT_SECRET ctx nxt amb w
    = (Throw UNAUTHORIZED_error, w).
Proof.
  intros Hit H. run_middleware.
  by rewrite (headersRecord_iterable _ Hit),
    (NoCredential_userId _ _ _ H), (NoCredential_permissions _ _ _ H).
Qed.

Lemma router_protected_verified ctx payload nxt amb w :
  iterableHeaders ctx = true →
  Verified ctx payload →
  RouterLevel.protectedProcedure jwt_verify JWT_SECRET ctx nxt amb w =
    match JS.or_null (userId payload) with
    | None => (Throw UNAUTHORIZED_error, w)
    | Some u => nxt (authenticated ctx u (ctx_permissions ctx)) amb w
    end.
Proof.
  intros Hit H. run_middleware.
  rewrite (headersRecord_iterable _ Hit), (Verified_userId _ _ _ _ H), or_null_idem.
  by destruct (JS.or_null (userId payload)).
Qed.

Lemma router_permission_verified required ctx payload nxt amb w :
  iterableHeaders ctx = true →
  Verified ctx payload →
  RouterLevel.permissionProcedure jwt_verify JWT_SECRET required ctx nxt amb w =
    match JS.or_null (userId payload) with
    | None => (Throw UNAUTHORIZED_error, w)
    | Some u =>
        if RouterLevel.hasPermission required (default [] (permissions payload))
        then nxt (authenticated ctx u (Some (default [] (permissions payload))))
                 (Some {| principalId := u;
                          granted := default [] (permissions payload) |}) w
        else (Throw (RouterLevel.FORBIDDEN_error required), w)
    end.
Proof.
  intros Hit H. run_middleware.
  rewrite (headersRecord_iterable _ Hit),
    (Verified_userId _ _ _ _ H), (Verified_permissions _ _ _ _ H), or_null_idem.
  destruct (JS.or_null (userId payload)); [|done].
  unfold RouterLevel.guard, bind.
  by destruct (RouterLevel.hasPermission _ _).
Qed.

Lemma service_protected_verified ctx payload nxt amb w :
  iterableHeaders ctx = true →
  Verified ctx payload →
  ServiceLevel.protectedProcedure jwt_verify JWT_SECRET ctx nxt amb w =
    match JS.or_null (userId payload) with
    | None => (Throw UNAUTHORIZED_error, w)
    | Some u =>
        nxt (authenticated ctx u (Some (default [] (permissions payload))))
            (Some {| principalId := u;
                     granted := default [] (permissions payload) |}) w
    end.
Proof.
  intros Hit H. run_middleware.
  rewrite (headersRecord_iterable _ Hit),
    (Verified_userId _ _ _ _ H), (Verified_permissions _ _ _ _ H), or_null_idem.
  by destruct (JS.or_null (userId payload)).
Qed.

(** A call that lacks a declared permission is turned away at the door of
    [permissionProcedure]: the handler is not entered. *)
Lemma router_permission_forbidden required ctx payload u nxt amb w :
  iterableHeaders ctx = true →
  Verified ctx payload →
  JS.or_null (userId payload) = Some u →
  RouterLevel.hasPermission required (default [] (permissions payload)) = false →
  RouterLevel.permissionProcedure jwt_verify JWT_SECRET required ctx nxt amb w
    = (Throw (RouterLevel.FORBIDDEN_error required), w).
Proof.
  intros Hit H Hu Hhas.
  by rewrite (router_permission_verified _ _ _ _ _ _ Hit H), Hu, Hhas.
Qed.

End Middlewares.

(** ** The ambient context inside and outside [runWithPermissions] *)

Section Ambient.

Context {St : Type}.
Implicit Types (w : World St) (amb : option AmbientContext).

(** Whatever ran before it inside the callback, a lookup sees the
    established context. *)
Lemma current_inside_scope {A B} permissions u (before : M St A)
    (k : A → option AmbientContext → M St B) amb w :
  PermissionsGuard.runWithPermissions permissions u
      (λ _, let* a := before in let* c := PermissionsGuard.current in k a c) amb w
  = PermissionsGuard.runWithPermissions permissions u
      (λ _, let* a := before in
            k a (Some {| principalId := u; granted := permissions |})) amb w.
Proof.
  unfold PermissionsGuard.runWithPermissions, PermissionsGuard.current, bind.
  by destruct (before _ w) as [[a|e] w'].
Qed.

(** Outside any scope a lookup sees what the chain had before; a scope that
    has completed leaves no trace. *)
Lemma current_after_scope {A} permissions u (callback : unit → M St A) amb w :
  (let* _ := PermissionsGuard.runWithPermissions permissions u callback in
   PermissionsGuard.current) amb w
  = match callback tt (Some {| principalId := u; granted := permissions |}) w with
    | (Ok _, w') => (Ok amb, w')
    | (Throw e, w') => (Throw e, w')
    end.
Proof.
  unfold PermissionsGuard.runWithPermissions, PermissionsGuard.current, bind.
  by destruct (callback _ _ w) as [[a|e] w'].
Qed.

(** The guard of the package neither changes the world nor depends on it,
    so a repeated check gives the same outcome. *)
Lemma checkRequiredPermissions_pure required amb w :
  (PermissionsGuard.checkRequiredPermissions required amb w).2 = w.
Proof.
  unfold PermissionsGuard.checkRequiredPermissions, PermissionsGuard.current, bind.
  destruct amb as [c|]; [|done]. simpl. by destruct (filter _ required).
Qed.

End Ambient.

(** ** Splitting at the space character and splitting at whitespace *)

Lemma all_chars_split (q : ascii → bool) sep s :
  q sep = true →
  (∀ piece, piece ∈ JS.split sep s → JS.all_chars q piece = true) →
  JS.all_chars q s = true.
Proof.
  intros Hsep. induction s as [|c rest IH]; intros Hpieces; [reflexivity|].
  simpl in *. destruct (Ascii.eqb_spec c sep) as [->|Hne].
  - rewrite Hsep. simpl. apply IH. intros piece Hin. apply Hpieces. by right.
  - destruct (JS.split sep rest) as [|piece pieces] eqn:Hsplit.
    + by destruct (split_nonempty sep rest).
    + pose proof (Hpieces (String c piece) ltac:(left)) as Hhead. simpl in Hhead.
      apply andb_prop in Hhead as [Hc Hpiece]. rewrite Hc. simpl.
      apply IH. intros p [->|Hin]%elem_of_cons; [done|].
      apply Hpieces. by right.
Qed.

Lemma splitWhitespace_split s :
  JS.all_chars (λ c, implb (Ascii.is_space c) (Ascii.eqb c " ")) s = true →
  JS.splitWhitespace s = JS.split " " s.
Proof.
  induction s as [|c rest IH]; [reflexivity|]. simpl.
  intros [Hc Hrest]%andb_prop. rewrite (IH Hrest).
  destruct (Ascii.eqb_spec c " ") as [->|Hne]; [reflexivity|].
  destruct (Ascii.is_space c); [discriminate|reflexivity].
Qed.

Lemma noWhitespace_implb s :
  JS.noWhitespace s = true →
  JS.all_chars (λ c, implb (Ascii.is_space c) (Ascii.eqb c " ")) s = true.
Proof.
  unfold JS.noWhitespace. induction s as [|c rest IH]; [reflexivity|]. simpl.
  intros [Hc Hrest]%andb_prop. rewrite (IH Hrest), andb_true_r.
  by destruct (Ascii.is_space c).
Qed.

(** A header of the shape [Bearer <token>] whose token holds no whitespace
    splits the same way at whitespace as at the space character. *)
Lemma bearer_splitWhitespace authHeader token :
  bearer authHeader token →
  JS.noWhitespace token = true →
  JS.splitWhitespace authHeader = ["Bearer"; token].
Proof.
  unfold bearer. intros Hb Htoken. rewrite <- Hb.
  apply splitWhitespace_split, (all_chars_split _ " "); [reflexivity|].
  rewrite Hb. intros piece [->|[->|[]%elem_of_nil]%elem_of_cons]%elem_of_cons.
  - reflexivity.
  - by apply noWhitespace_implb.
Qed.

(** ** Claims about the token decoder *)

(** C7.  The token decoder [parseAuthHeader] is total and returns an
    optional payload: on every input it resolves (no exception escapes it),
    and it returns a payload exactly when splitting the header at the space
    separator yields the two parts ["Bearer"] and a token that
    [jwt.verify] accepts; whenever verification throws, the result is the
    absent payload.  Provided [jwt.verify] accepts no token that holds a
    whitespace character (jsonwebtoken checks the compact JWS format
    first), a payload is returned only if splitting the header at
    whitespace yields exactly those two parts. *)
Theorem parseAuthHeader_total_optional :
  ∀ (jwt_verify : string → string → Result TokenPayload) (JWT_SECRET : option string)
    (authHeader : option string),
    (∃ result, parseAuthHeader jwt_verify JWT_SECRET authHeader = Ok result) ∧
    (∀ payload,
        parseAuthHeader jwt_verify JWT_SECRET authHeader = Ok (Some payload) ↔
        ∃ header token,
          authHeader = Some header ∧ bearer header token ∧
          jwt_verify token (secret JWT_SECRET) = Ok payload) ∧
    (∀ header token e,
        authHeader = Some header → bearer header token →
        jwt_verify token (secret JWT_SECRET) = Throw e →
        parseAuthHeader jwt_verify JWT_SECRET authHeader = Ok None) ∧
    ((∀ token key payload,
         jwt_verify token key = Ok payload → JS.noWhitespace token = true) →
     ∀ payload,
       parseAuthHeader jwt_verify JWT_SECRET authHeader = Ok (Some payload) →
       ∃ header token,
         authHeader = Some header ∧
         JS.splitWhitespace header = ["Bearer"; token] ∧
         jwt_verify token (secret JWT_SECRET) = Ok payload).
Proof.
  intros jwt_verify JWT_SECRET authHeader.
  enough ((∃ result, parseAuthHeader jwt_verify JWT_SECRET authHeader = Ok result) ∧
    (∀ payload,
        parseAuthHeader jwt_verify JWT_SECRET authHeader = Ok (Some payload) ↔
        ∃ header token,
          authHeader = Some header ∧ bearer header token ∧
          jwt_verify token (secret JWT_SECRET) = Ok payload) ∧
    (∀ header token e,
        authHeader = Some header → bearer header token →
        jwt_verify token (secret JWT_SECRET) = Throw e →
        parseAuthHeader jwt_verify JWT_SECRET authHeader = Ok None))
    as (Htotal & Hiff & Hthrow).
  { split; [exact Htotal|]. split; [exact Hiff|]. split; [exact Hthrow|].
    intros Hclean payload Hp.
    apply Hiff in Hp as (header & token & -> & Hb & Hv).
    exists header, token. split; [done|]. split; [|done].
    apply bearer_splitWhitespace; [done|]. by eapply Hclean. }
  destruct authHeader as [header|].
  - destruct (bearer_dec header) as [[token Hb]|Hno].
    + rewrite (parseAuthHeader_bearer jwt_verify JWT_SECRET _ _ Hb).
      split; [|split].
      * destruct (jwt_verify token _); eauto.
      * intros payload. split.
        -- intros Hp. exists header, token. split; [done|]. split; [done|].
           destruct (jwt_verify token _); congruence.
        -- intros (h' & token' & [= <-] & Hb' & Hv).
           unfold bearer in *. rewrite Hb in Hb'. injection Hb' as <-.
           by rewrite Hv.
      * intros h' token' e [= <-] Hb' Hv.
        unfold bearer in *. rewrite Hb in Hb'. injection Hb' as <-.
        by rewrite Hv.
    + rewrite (parseAuthHeader_not_bearer jwt_verify JWT_SECRET _ Hno).
      split; [eauto|]. split.
      * intros payload. split; [discriminate|].
        intros (h' & token' & [= <-] & Hb' & _). by destruct (Hno token').
      * done.
  - split; [by eexists|]. split.
    + intros payload. split; [discriminate|]. intros (? & ? & ? & _). discriminate.
    + done.
Qed.

Lemma sample_verify_noWhitespace token key payload :
  Sample.verify token key = Ok payload → JS.noWhitespace token = true.
Proof.
  unfold Sample.verify. destruct (negb _); [discriminate|].
  repeat match goal with
         | |- context [String.eqb token ?t] =>
             destruct (String.eqb_spec token t) as [->|_]; [reflexivity|]
         end.
  discriminate.
Defined.

Lemma parseAuthHeader_total_optional_witness :
  parseAuthHeader Sample.verify None (Some "Bearer tok.u1.sig")
    = Ok (Some {| userId := Some "u1"; email := None; permissions := Some ["user/read"] |})
  ∧ parseAuthHeader Sample.verify None (Some "Bearer forged") = Ok None
  ∧ ∃ header token,
      Some "Bearer tok.u1.sig" = Some header ∧
      JS.splitWhitespace header = ["Bearer"; token] ∧
      Sample.verify token (secret None)
        = Ok {| userId := Some "u1"; email := None; permissions := Some ["user/read"] |}.
Proof.
  pose proof (parseAuthHeader_total_optional Sample.verify None
                (Some "Bearer tok.u1.sig")) as (_ & Hiff & _ & Hws).
  pose proof (parseAuthHeader_total_optional Sample.verify None
                (Some "Bearer forged")) as (_ & _ & Hthrow & _).
  split; [|split].
  - apply Hiff. exists "Bearer tok.u1.sig", "tok.u1.sig". repeat split; reflexivity.
  - apply (Hthrow "Bearer forged" "forged" (JsonWebTokenError "jwt malformed"));
      reflexivity.
  - apply (Hws sample_verify_noWhitespace). reflexivity.
Defined.



(** ** Claims about the entry middlewares *)

(** C4.  For every inbound call whose Authorization header is absent,
    malformed, or fails token verification, each entry middleware rejects
    and leaves the world as it found it: in particular the count of handler
    entries is unchanged, so the business handler behind [next] was never
    invoked.  The rejection is the UNAUTHORIZED error when [ctx.headers] is
    absent or can be iterated.  When [ctx.headers] is the plain object of
    headers that the HTTP entry points pass, the rejection is the
    [TypeError] of [Object.fromEntries] and not an unauthenticated
    failure. *)
Theorem unauthenticated_call_never_reaches_handler :
  ∀ (jwt_verify : string → string → Result TokenPayload) (JWT_SECRET : option string)
    (St Data : Type) (requiredPermissions : list string) (ctx : Ctx)
    (handler : Ctx → M St Data) (amb : option AmbientContext) (w : World St),
    NoCredential jwt_verify JWT_SECRET ctx →
    let failure :=
      if iterableHeaders ctx
      then TRPCError UNAUTHORIZED "No authentication token provided"
      else TypeError in
    RouterLevel.permissionProcedure jwt_verify JWT_SECRET requiredPermissions
        ctx (next handler) amb w
      = (Throw failure, w) ∧
    ServiceLevel.protectedProcedure jwt_verify JWT_SECRET ctx (next handler) amb w
      = (Throw failure, w) ∧
    RouterLevel.protectedProcedure jwt_verify JWT_SECRET ctx (next handler) amb w
      = (Throw failure, w).
Proof.
  intros jwt_verify JWT_SECRET St Data required ctx handler amb w H. cbv zeta.
  destruct (iterableHeaders ctx) eqn:Hit; split; [|split| |split].
  - by apply router_permission_rejects.
  - by apply service_protected_rejects.
  - by apply router_protected_rejects.
  - by apply router_permission_plain.
  - by apply service_protected_plain.
  - by apply router_protected_plain.
Qed.

Lemma unauthenticated_call_never_reaches_handler_witness :
  (* the plain object of headers of a request that carries no
     authorization header: not an unauthenticated failure *)
  ServiceLevel.protectedProcedure Sample.verify None (Sample.incoming ∅)
      (next Sample.whoami) None Sample.world0
    = (Throw TypeError, Sample.world0)
  ∧ (* no headers at all *)
  ServiceLevel.protectedProcedure Sample.verify None Sample.bare
      (next Sample.whoami) None Sample.world0
    = (Throw (TRPCError UNAUTHORIZED "No authentication token provided"), Sample.world0)
  ∧ (* a header that is not of the Bearer shape *)
  ServiceLevel.protectedProcedure Sample.verify None (Sample.request "Basic dTE6cHc=")
      (next Sample.whoami) None Sample.world0
    = (Throw (TRPCError UNAUTHORIZED "No authentication token provided"), Sample.world0)
  ∧ (* a token that does not verify *)
  RouterLevel.permissionProcedure Sample.verify None ["user/read"]
      (Sample.request "Bearer forged") (next Sample.whoami) None Sample.world0
    = (Throw (TRPCError UNAUTHORIZED "No authentication token provided"), Sample.world0).
Proof.
  split; [|split; [|split]].
  - refine (proj1 (proj2 (unauthenticated_call_never_reaches_handler
              Sample.verify None unit _ [] (Sample.incoming ∅) Sample.whoami None
              Sample.world0 _))).
    apply header_absent. reflexivity.
  - refine (proj1 (proj2 (unauthenticated_call_never_reaches_handler
              Sample.verify None unit _ [] Sample.bare Sample.whoami None
              Sample.world0 _))).
    apply header_absent. reflexivity.
  - refine (proj1 (proj2 (unauthenticated_call_never_reaches_handler
              Sample.verify None unit _ [] (Sample.request "Basic dTE6cHc=")
              Sample.whoami None Sample.world0 _))).
    apply (header_malformed _ _ _ "Basic dTE6cHc="); [reflexivity|].
    intros token. unfold bearer. vm_compute. discriminate.
  - refine (proj1 (unauthenticated_call_never_reaches_handler
              Sample.verify None unit _ ["user/read"] (Sample.request "Bearer forged")
              Sample.whoami None Sample.world0 _)).
    apply (token_rejected _ _ _ "Bearer forged" "forged"
             (JsonWebTokenError "jwt malformed")); reflexivity.
Defined.

(** C10.  For every credential that verifies but whose decoded payload
    carries an empty-string [userId], or none, [extractUserId] coerces the
    falsy [userId] to the absent principal, and each entry middleware
    rejects before the handler runs.  The rejection is the UNAUTHORIZED
    error when [ctx.headers] is absent or can be iterated.  When
    [ctx.headers] is the plain object of headers that the HTTP entry points
    pass, [extractUserId] is not reached: the rejection is the [TypeError]
    of [Object.fromEntries] and the call is not treated as
    unauthenticated. *)
Theorem falsy_userId_is_unauthenticated :
  ∀ (jwt_verify : string → string → Result TokenPayload) (JWT_SECRET : option string)
    (St Data : Type) (requiredPermissions : list string) (ctx : Ctx)
    (payload : TokenPayload)
    (handler : Ctx → M St Data) (amb : option AmbientContext) (w : World St),
    Verified jwt_verify JWT_SECRET ctx payload →
    userId payload = Some "" ∨ userId payload = None →
    let failure :=
      if iterableHeaders ctx
      then TRPCError UNAUTHORIZED "No authentication token provided"
      else TypeError in
    extractUserId jwt_verify JWT_SECRET (requestHeaders ctx) = Ok None ∧
    ServiceLevel.protectedProcedure jwt_verify JWT_SECRET ctx (next handler) amb w
      = (Throw failure, w) ∧
    RouterLevel.permissionProcedure jwt_verify JWT_SECRET requiredPermissions
        ctx (next handler) amb w
      = (Throw failure, w) ∧
    RouterLevel.protectedProcedure jwt_verify JWT_SECRET ctx (next handler) amb w
      = (Throw failure, w).
Proof.
  intros jwt_verify JWT_SECRET St Data required ctx payload handler amb w Hv Hfalsy.
  cbv zeta.
  assert (JS.or_null (userId payload) = None) as Hnull
    by (destruct Hfalsy as [-> | ->]; reflexivity).
  split; [by rewrite (Verified_userId _ _ _ _ Hv), Hnull|].
  destruct (iterableHeaders ctx) eqn:Hit; split; [|split| |split].
  - by rewrite (service_protected_verified _ _ _ _ _ _ _ Hit Hv), Hnull.
  - by rewrite (router_permission_verified _ _ _ _ _ _ _ _ Hit Hv), Hnull.
  - by rewrite (router_protected_verified _ _ _ _ _ _ _ Hit Hv), Hnull.
  - by apply service_protected_plain.
  - by apply router_permission_plain.
  - by apply router_protected_plain.
Qed.

Lemma falsy_userId_is_unauthenticated_witness :
  (* the plain object of headers of a request whose token verifies and
     carries the empty userId: not an unauthenticated failure *)
  ServiceLevel.protectedProcedure Sample.verify None
      (Sample.incoming {["authorization" := HString "Bearer tok.empty.sig"]})
      (next Sample.whoami) None Sample.world0
    = (Throw TypeError, Sample.world0)
  ∧
  ServiceLevel.protectedProcedure Sample.verify None (Sample.request "Bearer tok.empty.sig")
      (next Sample.whoami) None Sample.world0
    = (Throw (TRPCError UNAUTHORIZED "No authentication token provided"), Sample.world0)
  ∧
  ServiceLevel.protectedProcedure Sample.verify None (Sample.request "Bearer tok.none.sig")
      (next Sample.whoami) None Sample.world0
    = (Throw (TRPCError UNAUTHORIZED "No authentication token provided"), Sample.world0).
Proof.
  split; [|split].
  - refine (proj1 (proj2 (falsy_userId_is_unauthenticated Sample.verify None unit _ []
              (Sample.incoming {["authorization" := HString "Bearer tok.empty.sig"]})
              {| userId := Some ""; email := None; permissions := Some ["admin"] |}
              Sample.whoami None Sample.world0 _ _))).
    + exists "Bearer tok.empty.sig", "tok.empty.sig". repeat split; reflexivity.
    + left. reflexivity.
  - refine (proj1 (proj2 (falsy_userId_is_unauthenticated Sample.verify None unit _ []
              (Sample.request "Bearer tok.empty.sig")
              {| userId := Some ""; email := None; permissions := Some ["admin"] |}
              Sample.whoami None Sample.world0 _ _))).
    + exists "Bearer tok.empty.sig", "tok.empty.sig". repeat split; reflexivity.
    + left. reflexivity.
  - refine (proj1 (proj2 (falsy_userId_is_unauthenticated Sample.verify None unit _ []
              (Sample.request "Bearer tok.none.sig")
              {| userId := None; email := None; permissions := Some ["admin"] |}
              Sample.whoami None Sample.world0 _ _))).
    + exists "Bearer tok.none.sig", "tok.none.sig". repeat split; reflexivity.
    + right. reflexivity.
Defined.




(** ** Claims about the permission guard of [permissionProcedure] *)

(** Membership goals and hypotheses on explicit arrays. *)
Ltac concrete_elem_of :=
  repeat match goal with
         | H : _ ∈ _ |- _ => apply list_elem_of_In in H; simpl in H
         | H : _ ∨ _ |- _ => destruct H as [H|H]
         | H : False |- _ => destruct H
         | H : _ = _ |- _ => first [discriminate H | subst]
         | |- _ ∉ _ => intros ?
         | |- _ ∈ _ => apply list_elem_of_In; simpl; tauto
         end.

Lemma hasPermission_spec required permissions :
  RouterLevel.hasPermission required permissions = true ↔
  ∀ perm, perm ∈ required → perm ∈ permissions.
Proof.
  unfold RouterLevel.hasPermission, JS.every. rewrite forallb_forall. split.
  - intros H perm Hin. apply includes_elem_of, H. by apply list_elem_of_In.
  - intros H perm Hin. apply includes_elem_of, H. by apply list_elem_of_In.
Qed.

Lemma guard_run {St} required permissions amb (w : World St) :
  RouterLevel.guard required permissions amb w =
    if RouterLevel.hasPermission required permissions
    then (Ok tt, w)
    else (Throw (RouterLevel.FORBIDDEN_error required), w).
Proof.
  unfold RouterLevel.guard. by destruct (RouterLevel.hasPermission _ _).
Qed.

Lemma missingPermissions_nil required permissions :
  missingPermissions required permissions = [] ↔
  ∀ perm, perm ∈ required → perm ∈ permissions.
Proof.
  unfold missingPermissions. induction required as [|p ps IH]; simpl.
  - split; [|done]. intros _ perm Hin. by apply elem_of_nil in Hin.
  - rewrite filter_cons. destruct (decide (p ∉ permissions)) as [Hout|Hin].
    + split; [discriminate|]. intros H. destruct Hout. apply H. left.
    + rewrite IH. apply dec_stable in Hin. split.
      * intros H perm [->|Hp]%elem_of_cons; auto.
      * intros H perm Hp. apply H. by right.
Qed.

(** C2.  The guard is conjunctive: for every list of required permissions
    and every list of granted permissions it returns normally if and only
    if every required string is among the granted ones; in particular it
    returns normally when the granted permissions are a strict superset of
    the required ones. *)
Theorem guard_is_conjunctive :
  ∀ (St : Type) (requiredPermissions permissions : list string)
    (amb : option AmbientContext) (w : World St),
    (RouterLevel.guard requiredPermissions permissions amb w = (Ok tt, w) ↔
       ∀ perm, perm ∈ requiredPermissions → perm ∈ permissions) ∧
    ((∀ perm, perm ∈ requiredPermissions → perm ∈ permissions) →
     (∃ extra, extra ∈ permissions ∧ extra ∉ requiredPermissions) →
     RouterLevel.guard requiredPermissions permissions amb w = (Ok tt, w)).
Proof.
  intros St required permissions amb w.
  assert (RouterLevel.guard required permissions amb w = (Ok tt, w) ↔
            ∀ perm, perm ∈ required → perm ∈ permissions) as Hiff.
  { rewrite guard_run, <- hasPermission_spec.
    destruct (RouterLevel.hasPermission required permissions); split;
      congruence. }
  split; [exact Hiff|]. intros Hall _. by apply Hiff.
Qed.

Lemma guard_is_conjunctive_witness :
  RouterLevel.guard ["user/create"; "admin"] ["user/create"; "admin"; "user/read"]
      None Sample.world0 = (Ok tt, Sample.world0)
  ∧ RouterLevel.guard ["user/create"; "admin"] ["admin"] None Sample.world0
      ≠ (Ok tt, Sample.world0).
Proof.
  split.
  - apply (proj2 (guard_is_conjunctive unit ["user/create"; "admin"]
                    ["user/create"; "admin"; "user/read"] None Sample.world0)).
    + intros perm Hin. concrete_elem_of.
    + exists "user/read". split; concrete_elem_of.
  - intros Hpass.
    apply (proj1 (guard_is_conjunctive unit ["user/create"; "admin"]
                    ["admin"] None Sample.world0)) with (perm := "user/create") in Hpass.
    + concrete_elem_of.
    + concrete_elem_of.
Defined.

Lemma append_assoc_string (a b c : string) :
  String.append (String.append a b) c = String.append a (String.append b c).
Proof.
  induction a as [|ch a IH]; [reflexivity|].
  change (String ch (String.append (String.append a b) c)
          = String ch (String.append a (String.append b c))).
  by rewrite IH.
Qed.

Lemma append_empty_r (a : string) : String.append a EmptyString = a.
Proof.
  induction a as [|ch a IH]; [reflexivity|].
  change (String ch (String.append a EmptyString) = String ch a).
  by rewrite IH.
Qed.

Lemma mentions_append_r msg p before :
  JS.mentions msg p → JS.mentions (String.append before msg) p.
Proof.
  intros (b & a & ->). exists (String.append before b), a.
  by rewrite append_assoc_string.
Qed.

Lemma join_mentions sep (xs : list string) p :
  p ∈ xs → JS.mentions (JS.join sep xs) p.
Proof.
  induction xs as [|x rest IH]; intros Hin.
  - by apply elem_of_nil in Hin.
  - destruct rest as [|y rest'].
    + apply list_elem_of_singleton in Hin as ->. simpl.
      exists EmptyString, EmptyString.
      change (x = String.append x EmptyString). by rewrite append_empty_r.
    + change (JS.join sep (x :: y :: rest'))
        with (String.append x (String.append sep (JS.join sep (y :: rest')))).
      apply elem_of_cons in Hin as [->|Hin].
      * exists EmptyString, (String.append sep (JS.join sep (y :: rest'))). done.
      * apply mentions_append_r, mentions_append_r, IH, Hin.
Qed.

(** C3, as the code has it.  For every call that lacks at least one
    required permission the guard raises the FORBIDDEN error, and its
    message is the fixed prefix followed by all the required permissions in
    their declared order, separated by commas: it names every missing
    permission, together with the required permissions that the caller
    holds. *)
Theorem forbidden_message_lists_required :
  ∀ (St : Type) (requiredPermissions permissions : list string)
    (amb : option AmbientContext) (w : World St),
    (∃ perm, perm ∈ requiredPermissions ∧ perm ∉ permissions) →
    let message :=
      String.append "Missing required permissions: " (JS.join ", " requiredPermissions) in
    RouterLevel.guard requiredPermissions permissions amb w
      = (Throw (TRPCError FORBIDDEN message), w) ∧
    (∀ perm, perm ∈ missingPermissions requiredPermissions permissions →
             JS.mentions message perm) ∧
    (∀ perm, perm ∈ requiredPermissions → JS.mentions message perm).
Proof.
  intros St required permissions amb w (perm & Hreq & Hout). cbv zeta.
  assert (∀ p, p ∈ required →
            JS.mentions (String.append "Missing required permissions: "
                           (JS.join ", " required)) p) as Hall.
  { intros p Hp. by apply mentions_append_r, join_mentions. }
  split; [|split].
  - rewrite guard_run.
    destruct (RouterLevel.hasPermission required permissions) eqn:Hhas; [|done].
    destruct Hout. by apply (proj1 (hasPermission_spec _ _) Hhas).
  - intros p Hp. apply Hall. unfold missingPermissions in Hp.
    by apply list_elem_of_filter in Hp as [_ ?].
  - exact Hall.
Qed.

Lemma forbidden_message_lists_required_witness :
  RouterLevel.guard ["user/delete"] ["user/read"] None Sample.world0
    = (Throw (TRPCError FORBIDDEN "Missing required permissions: user/delete"),
       Sample.world0).
Proof.
  refine (proj1 (forbidden_message_lists_required unit ["user/delete"] ["user/read"]
                   None Sample.world0 _)).
  exists "user/delete". split; concrete_elem_of.
Defined.

(** C3, as stated, fails: the caller holds [user/create] and lacks [admin];
    the only missing permission is [admin], and the message of the
    FORBIDDEN error names [user/create] as well. *)
Lemma forbidden_message_names_held_permission :
  RouterLevel.guard ["user/create"; "admin"] ["user/create"] None Sample.world0
    = (Throw (TRPCError FORBIDDEN "Missing required permissions: user/create, admin"),
       Sample.world0)
  ∧ missingPermissions ["user/create"; "admin"] ["user/create"] = ["admin"]
  ∧ "user/create" ∈ ["user/create"]
  ∧ JS.mentions "Missing required permissions: user/create, admin" "user/create".
Proof.
  split; [reflexivity|]. split; [reflexivity|]. split; [concrete_elem_of|].
  exists "Missing required permissions: ", ", admin". reflexivity.
Qed.

(** C9.  The guard is idempotent: for every list of required permissions
    and every fixed context, running it twice in sequence gives the same
    outcome both times, and neither run changes the world. *)
Theorem guard_idempotent :
  ∀ (St : Type) (requiredPermissions permissions : list string)
    (amb : option AmbientContext) (w : World St),
    let first := RouterLevel.guard requiredPermissions permissions amb w in
    let second := RouterLevel.guard requiredPermissions permissions amb first.2 in
    second.1 = first.1 ∧ first.2 = w ∧ second.2 = w.
Proof.
  intros St required permissions amb w. cbv zeta.
  rewrite (guard_run required permissions amb w).
  destruct (RouterLevel.hasPermission required permissions) eqn:Hhas; simpl;
    rewrite guard_run, Hhas; auto.
Qed.

(** ** Claims about the guarded methods of [UserDAO] *)

Lemma checkRequiredPermissions_run {St} required amb (w : World St) :
  PermissionsGuard.checkRequiredPermissions required amb w =
    match amb with
    | None => (Throw GuardUnauthenticated, w)
    | Some c =>
        match missingPermissions required (granted c) with
        | [] => (Ok tt, w)
        | missing => (Throw (GuardAccessDenied missing), w)
        end
    end.
Proof.
  unfold PermissionsGuard.checkRequiredPermissions, PermissionsGuard.current, bind,
    missingPermissions.
  destruct amb as [c|]; [|done].
  by destruct (filter _ required).
Qed.

Lemma checkRequiredPermissions_denied {St} perm c (w : World St) :
  perm ∉ granted c →
  PermissionsGuard.checkRequiredPermissions [perm] (Some c) w
    = (Throw (GuardAccessDenied [perm]), w).
Proof.
  intros Hout. rewrite checkRequiredPermissions_run. unfold missingPermissions.
  rewrite filter_cons, decide_True by done. by rewrite filter_nil.
Qed.

(** A computation that starts with a failing guard stops there. *)
Lemma guard_first {St A} perm c (rest : unit → M St A) (w : World St) :
  perm ∉ granted c →
  (let* x := PermissionsGuard.checkRequiredPermissions [perm] in rest x) (Some c) w
    = (Throw (GuardAccessDenied [perm]), w).
Proof.
  intros Hout. unfold bind. by rewrite checkRequiredPermissions_denied.
Qed.

(** C6.  In each method of [UserDAO] that calls the guard ([create],
    [findAll], [update], [delete]) the check comes before any access to the
    database service: when the caller lacks the permission, the method
    rejects with the access-denied failure and the world (the Prisma client
    of the service and the database behind it) is exactly what it was, so
    no create, update or delete has taken effect. *)
Theorem dao_denied_changes_nothing :
  ∀ (DB : Type)
    (user_create : string → string → DB → Result User * DB)
    (user_findUnique_id : string → DB → Result (option User) * DB)
    (user_findMany : DB → Result (list User) * DB)
    (user_update : string → UserUpdate → DB → Result User * DB)
    (user_delete : string → DB → Result User * DB)
    (c : AmbientContext) (w : World (AppState DB)),
    ("user/create" ∉ granted c →
       ∀ name email,
         UserDAO.create DB user_create name email (Some c) w
           = (Throw (GuardAccessDenied ["user/create"]), w)) ∧
    ("user/read" ∉ granted c →
       UserDAO.findAll DB user_findMany (Some c) w
         = (Throw (GuardAccessDenied ["user/read"]), w)) ∧
    ("user/write" ∉ granted c →
       ∀ id data,
         UserDAO.update DB user_update id data (Some c) w
           = (Throw (GuardAccessDenied ["user/write"]), w)) ∧
    ("user/delete" ∉ granted c →
       ∀ id,
         UserDAO.delete DB user_findUnique_id user_delete id (Some c) w
           = (Throw (GuardAccessDenied ["user/delete"]), w)).
Proof.
  intros DB user_create user_findUnique_id user_findMany user_update user_delete c w.
  repeat split; intros Hout; intros;
    unfold UserDAO.create, UserDAO.findAll, UserDAO.update, UserDAO.delete;
    by apply guard_first.
Qed.

Lemma dao_denied_changes_nothing_witness :
  UserDAO.delete (list User) Sample.user_findUnique_id Sample.user_delete "1"
      Sample.reader Sample.table0
    = (Throw (GuardAccessDenied ["user/delete"]), Sample.table0)
  ∧ UserDAO.create (list User) Sample.user_create "Bob" "bob@example.com"
      Sample.reader Sample.table0
    = (Throw (GuardAccessDenied ["user/create"]), Sample.table0).
Proof.
  pose proof (dao_denied_changes_nothing (list User) Sample.user_create
                Sample.user_findUnique_id Sample.user_findMany Sample.user_update
                Sample.user_delete
                {| principalId := "u1"; granted := ["user/read"] |} Sample.table0)
    as (Hcreate & _ & _ & Hdelete).
  split.
  - apply Hdelete. concrete_elem_of.
  - apply Hcreate. concrete_elem_of.
Defined.

(** With the permission granted the same call does delete the row: the
    guard is what stood between the caller and the mutation. *)
Example dao_delete_granted :
  UserDAO.delete (list User) Sample.user_findUnique_id Sample.user_delete "1"
      (Some {| principalId := "u2"; granted := ["user/delete"] |}) Sample.table0
    = (Ok (Some Sample.alice),
       {| handlerCalls := 1; app := {| prisma := true; database := [] |} |}).
Proof. reflexivity. Qed.


(** * Further properties of the code *)

Local Open Scope list_scope.

(** ** [Map] and counters *)

Section MapFacts.

Context {V : Type}.
Implicit Types (m : list (string * V)) (k : string) (v : V).

Lemma map_get_None m k : JSMap.get m k = None ↔ k ∉ m.*1.
Proof.
  induction m as [|[k' v'] rest IH]; simpl.
  - split; [intros _; apply not_elem_of_nil | done].
  - destruct (String.eqb_spec k' k) as [->|Hne].
    + split; [discriminate|]. intros Hout. destruct Hout. left.
    + rewrite IH, not_elem_of_cons. split; [by split | by intros [_ ?]].
Qed.

Lemma map_get_elem_of m k v : JSMap.get m k = Some v → (k, v) ∈ m.
Proof.
  induction m as [|[k' v'] rest IH]; simpl; [discriminate|].
  destruct (String.eqb_spec k' k) as [->|Hne].
  - intros [= ->]. left.
  - intros H. right. by apply IH.
Qed.

Lemma map_elem_of_get m k v : NoDup m.*1 → (k, v) ∈ m → JSMap.get m k = Some v.
Proof.
  induction m as [|[k' v'] rest IH]; simpl; intros Hnd Hin.
  - by apply elem_of_nil in Hin.
  - apply NoDup_cons in Hnd as [Hout Hnd].
    apply elem_of_cons in Hin as [[= -> ->]|Hin].
    + by rewrite String.eqb_refl.
    + destruct (String.eqb_spec k' k) as [->|Hne]; [|by apply IH].
      destruct Hout. apply list_elem_of_fmap. by exists (k, v).
Qed.

Lemma map_get_set_eq m k v : JSMap.get (JSMap.set m k v) k = Some v.
Proof.
  induction m as [|[k' v'] rest IH]; simpl.
  - by rewrite String.eqb_refl.
  - destruct (String.eqb_spec k' k) as [->|Hne]; simpl.
    + by rewrite String.eqb_refl.
    + by destruct (String.eqb_spec k' k).
Qed.

Lemma map_get_set_ne m k k' v : k ≠ k' → JSMap.get (JSMap.set m k v) k' = JSMap.get m k'.
Proof.
  intros Hne. induction m as [|[k0 v0] rest IH]; simpl.
  - by destruct (String.eqb_spec k k').
  - destruct (String.eqb_spec k0 k) as [->|Hne0]; simpl.
    + by destruct (String.eqb_spec k k').
    + by rewrite IH.
Qed.

Lemma map_set_new m k v : JSMap.get m k = None → JSMap.set m k v = (m ++ [(k, v)])%list.
Proof.
  induction m as [|[k' v'] rest IH]; simpl; [done|].
  destruct (String.eqb_spec k' k); [discriminate|].
  intros H. by rewrite IH.
Qed.

Lemma map_set_keys m k v v0 : JSMap.get m k = Some v0 → (JSMap.set m k v).*1 = m.*1.
Proof.
  induction m as [|[k' v'] rest IH]; csimpl; [discriminate|].
  destruct (String.eqb_spec k' k) as [->|Hne]; [done|].
  intros H. csimpl. by rewrite IH.
Qed.

Lemma map_set_NoDup m k v : NoDup m.*1 → NoDup (JSMap.set m k v).*1.
Proof.
  intros Hnd. destruct (JSMap.get m k) as [v0|] eqn:Hget.
  - by rewrite (map_set_keys _ _ _ _ Hget).
  - rewrite (map_set_new _ _ _ Hget), fmap_app. simpl.
    apply NoDup_app. split; [done|]. split; [|apply NoDup_singleton].
    intros k' Hin ->%list_elem_of_singleton. by apply map_get_None in Hget.
Qed.

Lemma map_elem_of_set m k v k' v' :
  NoDup m.*1 →
  (k', v') ∈ JSMap.set m k v → (k' = k ∧ v' = v) ∨ ((k', v') ∈ m ∧ k' ≠ k).
Proof.
  induction m as [|[k0 v0] rest IH]; simpl; intros Hnd.
  - intros [= -> ->]%list_elem_of_singleton. by left.
  - apply NoDup_cons in Hnd as [Hout Hnd].
    destruct (String.eqb_spec k0 k) as [->|Hne].
    + intros [[= -> ->]|Hin]%elem_of_cons; [by left|].
      right. split; [by right|]. intros ->. destruct Hout.
      apply list_elem_of_fmap. by exists (k, v').
    + intros [[= -> ->]|Hin]%elem_of_cons.
      * right. split; [left | done].
      * destruct (IH Hnd Hin) as [?|[? ?]]; [by left|]. right. split; [by right|done].
Qed.

Lemma map_set_values_new m k v :
  JSMap.get m k = None → JSMap.values (JSMap.set m k v) = (JSMap.values m ++ [v])%list.
Proof.
  intros H. unfold JSMap.values. by rewrite (map_set_new _ _ _ H), map_app.
Qed.

Lemma map_get_remove_eq m k : JSMap.get (JSMap.remove m k) k = None.
Proof.
  apply map_get_None. unfold JSMap.remove. intros Hin.
  apply list_elem_of_fmap in Hin as ([k' v'] & -> & Hin).
  apply list_elem_of_In, filter_In in Hin as [_ Hne]. simpl in Hne.
  by rewrite String.eqb_refl in Hne.
Qed.

Lemma map_get_remove_ne m k k' : k ≠ k' → JSMap.get (JSMap.remove m k) k' = JSMap.get m k'.
Proof.
  intros Hne. unfold JSMap.remove. induction m as [|[k0 v0] rest IH]; simpl; [done|].
  destruct (String.eqb_spec k0 k) as [->|Hne0]; simpl.
  - by destruct (String.eqb_spec k k').
  - by rewrite IH.
Qed.

Lemma map_elem_of_remove m k k' v' :
  (k', v') ∈ JSMap.remove m k ↔ (k', v') ∈ m ∧ k' ≠ k.
Proof.
  unfold JSMap.remove. rewrite !list_elem_of_In, filter_In. simpl.
  destruct (String.eqb_spec k' k); simpl; intuition congruence.
Qed.

Lemma map_remove_NoDup m k : NoDup m.*1 → NoDup (JSMap.remove m k).*1.
Proof.
  unfold JSMap.remove. induction m as [|[k0 v0] rest IH]; simpl; [done|].
  intros [Hout Hnd]%NoDup_cons.
  destruct (String.eqb_spec k0 k) as [->|Hne]; simpl; [by apply IH|].
  apply NoDup_cons. split; [|by apply IH].
  intros Hin. apply Hout.
  apply list_elem_of_fmap in Hin as ([k' v'] & -> & Hin).
  apply list_elem_of_In, filter_In in Hin as [Hin _].
  apply list_elem_of_fmap. exists (k', v'). split; [done|]. by apply list_elem_of_In.
Qed.

Lemma map_remove_absent m k : JSMap.get m k = None → JSMap.remove m k = m.
Proof.
  unfold JSMap.remove. induction m as [|[k0 v0] rest IH]; simpl; [done|].
  destruct (String.eqb_spec k0 k) as [->|Hne]; [discriminate|]. simpl.
  intros H. by rewrite IH.
Qed.

End MapFacts.

Lemma toString_inj n n' : JSNumber.toString n = JSNumber.toString n' → n = n'.
Proof.
  unfold JSNumber.toString. intros H.
  apply Unsigned.to_uint_inj.
  assert (Some (N.to_uint n) = Some (N.to_uint n')) as [= ?]; [|done].
  by rewrite <- !NilEmpty.usu, H.
Qed.

(** ** The in-memory user service *)

Lemma sample_two_invariant : UserService.Invariant SampleService.two.
Proof.
  split; [|split].
  - simpl. repeat constructor; concrete_elem_of.
  - intros k u Hin. apply list_elem_of_In in Hin. simpl in Hin.
    destruct Hin as [[= <- <-]|[[= <- <-]|[]]]; (split; [reflexivity|]).
    + exists 1%N. split; reflexivity.
    + exists 2%N. split; reflexivity.
  - split; vm_compute; discriminate.
Defined.

Lemma counter_key_fresh s :
  UserService.Invariant s →
  JSMap.get (UserService.users s) (JSNumber.toString (UserService.idCounter s)) = None.
Proof.
  intros (_ & Hids & _). apply map_get_None. intros Hin.
  apply list_elem_of_fmap in Hin as ([k u] & Hk & Hin). simpl in Hk. subst k.
  destruct (Hids _ _ Hin) as (_ & n & Hlt & Heq).
  apply toString_inj in Heq. subst n. by apply N.lt_irrefl in Hlt.
Qed.

Lemma increment_lt n : (n < JSNumber.limit)%N → JSNumber.increment n = (n + 1)%N.
Proof.
  intros H. unfold JSNumber.increment. by apply N.ltb_lt in H as ->.
Qed.

(** X1.  [createUser] on a service in its invariant hands out an id that no
    stored user has, stores the new user under it at the end of the
    listing, and leaves every other lookup as it was. *)
Theorem createUser_stores_fresh_user :
  ∀ (now : Z) (name email : string) (s : UserService.State),
    UserService.Invariant s →
    let user := (UserService.createUser now name email s).1 in
    let s' := (UserService.createUser now name email s).2 in
    UserService.getUserById (UserService.id user) s = None ∧
    UserService.getUserById (UserService.id user) s' = Some user ∧
    UserService.getAllUsers s' = (UserService.getAllUsers s ++ [user])%list ∧
    (∀ k, k ≠ UserService.id user →
          UserService.getUserById k s' = UserService.getUserById k s).
Proof.
  intros now name email s Hinv. cbv zeta.
  pose proof (counter_key_fresh s Hinv) as Hfresh.
  unfold UserService.createUser, UserService.getUserById, UserService.getAllUsers.
  simpl. split; [done|]. split; [apply map_get_set_eq|]. split.
  - by apply map_set_values_new.
  - intros k Hne. by apply map_get_set_ne.
Qed.

Lemma createUser_stores_fresh_user_witness :
  UserService.getAllUsers
    (UserService.createUser 3000 "Cy" "cy@example.com" SampleService.two).2
  = [SampleService.ann; SampleService.bob;
     {| UserService.id := "3"; UserService.name := Some "Cy";
        UserService.email := Some "cy@example.com"; UserService.createdAt := 3000 |}].
Proof.
  exact (proj1 (proj2 (proj2 (createUser_stores_fresh_user 3000 "Cy" "cy@example.com"
                                SampleService.two sample_two_invariant)))).
Defined.

(** X2.  The invariant of the service holds when it is constructed and is
    kept by every method: by [createUser] as long as the counter is below
    2^53, by [updateUser], [deleteUser] and [shutdown] always. *)
Theorem service_invariant_kept :
  UserService.Invariant UserService.fresh ∧
  ∀ s, UserService.Invariant s →
    (∀ now name email,
        (UserService.idCounter s < JSNumber.limit)%N →
        UserService.Invariant (UserService.createUser now name email s).2) ∧
    (∀ id updates, UserService.Invariant (UserService.updateUser id updates s).2) ∧
    (∀ id, UserService.Invariant (UserService.deleteUser id s).2) ∧
    UserService.Invariant (UserService.shutdown s).
Proof.
  split.
  - split; [constructor|]. split; [|by vm_compute].
    intros k u Hin. by apply elem_of_nil in Hin.
  - intros s Hinv. pose proof Hinv as (Hnd & Hids & Hlo & Hhi).
    split; [|split; [|split]].
    + intros now name email Hlt. unfold UserService.createUser. simpl.
      rewrite (increment_lt _ Hlt). split; [by apply map_set_NoDup|]. split.
      * intros k u Hin. apply (map_elem_of_set _ _ _ _ _ Hnd) in Hin as [[-> ->]|[Hin _]].
        -- split; [done|]. exists (UserService.idCounter s). split; [simpl; lia|done].
        -- destruct (Hids _ _ Hin) as (Hid & n & Hn & Hk).
           split; [done|]. exists n. split; [simpl; lia|done].
      * simpl. lia.
    + intros id updates. unfold UserService.updateUser.
      destruct (JSMap.get (UserService.users s) id) as [user|] eqn:Hget; [|done].
      simpl. split; [by apply map_set_NoDup|]. split; [|done].
      intros k u Hin. apply (map_elem_of_set _ _ _ _ _ Hnd) in Hin as [[-> ->]|[Hin _]].
      * split; [done|]. apply map_get_elem_of in Hget. by destruct (Hids _ _ Hget).
      * by apply Hids.
    + intros id. unfold UserService.deleteUser. simpl.
      split; [by apply map_remove_NoDup|]. split; [|done].
      intros k u [Hin _]%map_elem_of_remove. by apply Hids.
    + split; [constructor|]. split; [|done].
      intros k u Hin. by apply elem_of_nil in Hin.
Qed.

Lemma service_invariant_kept_witness :
  UserService.Invariant
    (UserService.createUser 3000 "Cy" "cy@example.com" SampleService.two).2.
Proof.
  refine (proj1 (proj2 service_invariant_kept SampleService.two sample_two_invariant)
            3000%Z "Cy" "cy@example.com" _).
  reflexivity.
Defined.

(** X3.  Below 2^53, two creations in a row hand out the decimal forms of
    two numbers of which the second is the larger: the ids differ. *)
Theorem createUser_ids_increase :
  ∀ (now now' : Z) (name email name' email' : string) (s : UserService.State),
    (UserService.idCounter s < JSNumber.limit)%N →
    let first := UserService.createUser now name email s in
    let second := UserService.createUser now' name' email' first.2 in
    ∃ n n',
      UserService.id first.1 = JSNumber.toString n ∧
      UserService.id second.1 = JSNumber.toString n' ∧
      (n < n')%N ∧
      UserService.id first.1 ≠ UserService.id second.1.
Proof.
  intros now now' name email name' email' s Hlt. cbv zeta.
  exists (UserService.idCounter s), (UserService.idCounter s + 1)%N.
  unfold UserService.createUser. simpl. rewrite (increment_lt _ Hlt).
  split; [done|]. split; [done|]. split; [lia|].
  intros Heq%toString_inj. lia.
Qed.

(** At 2^53 the precondition fails and so does the conclusion: the counter
    no longer moves and the next creation is given the same id. *)
Example createUser_at_limit :
  let s := {| UserService.users := []; UserService.idCounter := JSNumber.limit |} in
  let first := UserService.createUser 0 "a" "a@example.com" s in
  let second := UserService.createUser 0 "b" "b@example.com" first.2 in
  UserService.id first.1 = UserService.id second.1
  ∧ length (UserService.getAllUsers second.2) = 1.
Proof. by vm_compute. Qed.

Lemma createUser_ids_increase_witness :
  ∃ n n',
    "3" = JSNumber.toString n ∧ "4" = JSNumber.toString n' ∧ (n < n')%N ∧ "3" ≠ "4".
Proof.
  refine (createUser_ids_increase 3000 4000 "Cy" "cy@example.com" "Di" "di@example.com"
            SampleService.two _).
  reflexivity.
Defined.

(** [user.email === email], decided. *)
Lemma has_email_spec email user :
  reflect (UserService.email user = Some email) (UserService.has_email email user).
Proof.
  unfold UserService.has_email. destruct (UserService.email user) as [e|].
  - destruct (String.eqb_spec e email) as [->|Hne]; constructor; congruence.
  - constructor. discriminate.
Qed.

Lemma state_eta (s : UserService.State) :
  {| UserService.users := UserService.users s;
     UserService.idCounter := UserService.idCounter s |} = s.
Proof. by destruct s. Qed.

(** X4.  [updateUser] on an unknown id returns null and changes nothing.
    On a stored user it returns and stores the merged user.  The name is
    kept when the update has no [name] key, and otherwise becomes what the
    key holds: a string, or [undefined], which erases the name; and so for
    the email.  The id and the creation time stay those of the stored user
    whatever the update carries; the listing keeps its keys and their
    order, the counter and every other user are untouched. *)
Theorem updateUser_merges_in_place :
  ∀ (id : string) (updates : UserService.PartialUser) (s : UserService.State),
    (UserService.getUserById id s = None →
       UserService.updateUser id updates s = (None, s)) ∧
    (∀ user,
       UserService.getUserById id s = Some user →
       ∃ updated s',
         UserService.updateUser id updates s = (Some updated, s') ∧
         UserService.id updated = id ∧
         UserService.createdAt updated = UserService.createdAt user ∧
         (UserService.with_name updates = None →
            UserService.name updated = UserService.name user) ∧
         (∀ held, UserService.with_name updates = Some held →
            UserService.name updated = held) ∧
         (UserService.with_email updates = None →
            UserService.email updated = UserService.email user) ∧
         (∀ held, UserService.with_email updates = Some held →
            UserService.email updated = held) ∧
         UserService.getUserById id s' = Some updated ∧
         (∀ k, k ≠ id → UserService.getUserById k s' = UserService.getUserById k s) ∧
         (UserService.users s').*1 = (UserService.users s).*1 ∧
         UserService.idCounter s' = UserService.idCounter s).
Proof.
  intros id updates s. unfold UserService.updateUser, UserService.getUserById.
  split.
  - by intros ->.
  - intros user Hget. rewrite Hget. eexists _, _. split; [reflexivity|]. simpl.
    split; [done|]. split; [done|].
    split; [by intros ->|]. split; [by intros held ->|].
    split; [by intros ->|]. split; [by intros held ->|].
    split; [apply map_get_set_eq|]. split; [|split; [|done]].
    + intros k Hne. by apply map_get_set_ne.
    + by eapply map_set_keys.
Qed.

Lemma updateUser_merges_in_place_witness :
  UserService.updateUser "9" (SampleService.rename "Zed") SampleService.two
    = (None, SampleService.two)
  ∧ (∃ updated s',
      UserService.updateUser "2" (SampleService.rename "Rob") SampleService.two
        = (Some updated, s') ∧
      UserService.id updated = "2" ∧
      UserService.createdAt updated = 2000%Z ∧
      UserService.name updated = Some "Rob" ∧
      UserService.email updated = Some "bob@example.com")
  ∧ (∃ updated s',
      UserService.updateUser "2" SampleService.unname SampleService.two
        = (Some updated, s') ∧
      UserService.name updated = None ∧
      UserService.email updated = Some "bob@example.com").
Proof.
  split; [|split].
  - apply (proj1 (updateUser_merges_in_place "9" (SampleService.rename "Zed")
                    SampleService.two)). reflexivity.
  - destruct (proj2 (updateUser_merges_in_place "2" (SampleService.rename "Rob")
                       SampleService.two) SampleService.bob eq_refl)
      as (updated & s' & Hrun & Hid & Hat & _ & Hname & Hemail & _).
    exists updated, s'. split; [exact Hrun|]. split; [exact Hid|].
    split; [exact Hat|]. split; [exact (Hname _ eq_refl)|exact (Hemail eq_refl)].
  - destruct (proj2 (updateUser_merges_in_place "2" SampleService.unname
                       SampleService.two) SampleService.bob eq_refl)
      as (updated & s' & Hrun & _ & _ & _ & Hname & Hemail & _).
    exists updated, s'. split; [exact Hrun|].
    split; [exact (Hname _ eq_refl)|exact (Hemail eq_refl)].
Defined.

(** X5.  [deleteUser] answers whether the id was stored; afterwards the id
    is not found, every other lookup is as before, and deleting it again
    answers false.  Deleting an id that is not stored changes nothing. *)
Theorem deleteUser_removes_exactly :
  ∀ (id : string) (s : UserService.State),
    let s' := (UserService.deleteUser id s).2 in
    ((UserService.deleteUser id s).1 = true ↔ is_Some (UserService.getUserById id s)) ∧
    UserService.getUserById id s' = None ∧
    (∀ k, k ≠ id → UserService.getUserById k s' = UserService.getUserById k s) ∧
    (UserService.deleteUser id s').1 = false ∧
    (UserService.getUserById id s = None → s' = s).
Proof.
  intros id s. cbv zeta.
  unfold UserService.deleteUser, UserService.getUserById, JSMap.has. simpl.
  split; [|split; [|split; [|split]]].
  - destruct (JSMap.get (UserService.users s) id); split;
      [by eexists | done | discriminate | by intros [? ?]].
  - apply map_get_remove_eq.
  - intros k Hne. by apply map_get_remove_ne.
  - by rewrite map_get_remove_eq.
  - intros Hnone. rewrite (map_remove_absent _ _ Hnone). apply state_eta.
Qed.

Lemma deleteUser_removes_exactly_witness :
  (UserService.deleteUser "1" SampleService.two).1 = true
  ∧ (UserService.deleteUser "7" SampleService.two).2 = SampleService.two.
Proof.
  split.
  - apply (proj1 (deleteUser_removes_exactly "1" SampleService.two)). by eexists.
  - apply (proj2 (proj2 (proj2 (proj2
             (deleteUser_removes_exactly "7" SampleService.two))))). reflexivity.
Defined.

(** X6.  [findByEmail] is sound and complete: what it returns is a stored
    user with that email, the first one in the listing, and it returns null
    only when no stored user has the email. *)
Theorem findByEmail_sound_complete :
  ∀ (email : string) (s : UserService.State),
    (∀ user,
       UserService.findByEmail email s = Some user →
       user ∈ UserService.getAllUsers s ∧ UserService.email user = Some email ∧
       ∃ before after,
         UserService.getAllUsers s = (before ++ user :: after)%list ∧
         ∀ other, other ∈ before → UserService.email other ≠ Some email) ∧
    (UserService.findByEmail email s = None ↔
       ∀ user, user ∈ UserService.getAllUsers s → UserService.email user ≠ Some email).
Proof.
  intros email s. unfold UserService.findByEmail, UserService.getAllUsers.
  generalize (JSMap.values (UserService.users s)). intros l.
  induction l as [|u rest [IHsome IHnone]]; simpl.
  - split; [discriminate|]. split; [|done]. intros _ user Hin.
    by apply elem_of_nil in Hin.
  - destruct (has_email_spec email u) as [Heq|Hne].
    + split.
      * intros user [= <-]. split; [left|]. split; [done|].
        exists [], rest. split; [done|]. intros other Hin. by apply elem_of_nil in Hin.
      * split; [discriminate|]. intros H. destruct (H u); [left|done].
    + split.
      * intros user Hfind. destruct (IHsome user Hfind) as (Hin & Hmail & before & after & -> & Hbefore).
        split; [by right|]. split; [done|].
        exists (u :: before), after. split; [done|].
        intros other [->|Hin']%elem_of_cons; [done|by apply Hbefore].
      * rewrite IHnone. split.
        -- intros H user [->|Hin]%elem_of_cons; [done|by apply H].
        -- intros H user Hin. apply H. by right.
Qed.

Lemma findByEmail_sound_complete_witness :
  SampleService.bob ∈ UserService.getAllUsers SampleService.two
  ∧ UserService.email SampleService.bob = Some "bob@example.com".
Proof.
  destruct (proj1 (findByEmail_sound_complete "bob@example.com" SampleService.two)
              SampleService.bob eq_refl) as (Hin & Hmail & _).
  exact (conj Hin Hmail).
Defined.

(** X7.  [shutdown] empties the store and keeps the counter: a user created
    after a shutdown never gets the id of a user that was stored before
    it. *)
Theorem shutdown_never_reuses_ids :
  ∀ (now : Z) (name email : string) (s : UserService.State),
    UserService.Invariant s →
    UserService.getAllUsers (UserService.shutdown s) = [] ∧
    ∀ old, old ∈ UserService.getAllUsers s →
      UserService.id (UserService.createUser now name email (UserService.shutdown s)).1
        ≠ UserService.id old.
Proof.
  intros now name email s (Hnd & Hids & _). split; [reflexivity|].
  intros old Hin. unfold UserService.getAllUsers, JSMap.values in Hin.
  apply list_elem_of_fmap in Hin as ([k u] & -> & Hin). simpl.
  destruct (Hids _ _ Hin) as (-> & n & Hlt & Hk).
  rewrite Hk. intros Heq%toString_inj. lia.
Qed.

Lemma shutdown_never_reuses_ids_witness :
  UserService.id
    (UserService.createUser 5000 "Eve" "eve@example.com"
       (UserService.shutdown SampleService.two)).1
  ≠ UserService.id SampleService.bob.
Proof.
  apply (proj2 (shutdown_never_reuses_ids 5000 "Eve" "eve@example.com"
                  SampleService.two sample_two_invariant)).
  concrete_elem_of.
Defined.

(** ** The users router *)

Lemma world_eta {St} (w : World St) :
  {| handlerCalls := handlerCalls w; app := app w |} = w.
Proof. by destruct w. Qed.

Lemma findByEmail_None email s :
  UserService.findByEmail email s = None ↔
  email ∉ omap UserService.email (UserService.getAllUsers s).
Proof.
  unfold UserService.findByEmail, UserService.getAllUsers.
  induction (JSMap.values (UserService.users s)) as [|u rest IH]; csimpl.
  - split; [intros _; apply not_elem_of_nil | done].
  - destruct (has_email_spec email u) as [Heq|Hne].
    + rewrite Heq. split; [discriminate|]. intros Hout. destruct Hout. left.
    + rewrite IH. destruct (UserService.email u) as [e|]; [|done].
      rewrite not_elem_of_cons. split; [|by intros [_ ?]].
      intros Hout. split; [congruence|done].
Qed.

Lemma findByEmail_Some email s user :
  UserService.findByEmail email s = Some user →
  user ∈ UserService.getAllUsers s ∧ UserService.email user = Some email.
Proof.
  unfold UserService.findByEmail. intros H%find_some.
  destruct H as [Hin Heq]. split; [by apply list_elem_of_In|].
  by destruct (has_email_spec email user).
Qed.

Lemma map_set_existing {V} (m : list (string * V)) k v v0 :
  JSMap.get m k = Some v0 →
  ∃ before after,
    m = (before ++ (k, v0) :: after)%list ∧
    JSMap.set m k v = (before ++ (k, v) :: after)%list.
Proof.
  induction m as [|[k' v'] rest IH]; simpl; [discriminate|].
  destruct (String.eqb_spec k' k) as [->|Hne].
  - intros [= ->]. by exists [], rest.
  - intros H. destruct (IH H) as (before & after & -> & ->).
    by exists ((k', v') :: before), after.
Qed.

(** Replacing one element of a listing keeps the defined values of a
    field pairwise different when the new element has the value of the old
    one, or none, or one that the listing does not hold. *)
Lemma NoDup_omap_replace {A B} (f : A → option B) (l1 l2 : list A) x y :
  NoDup (omap f (l1 ++ x :: l2)) →
  f y = f x ∨ f y = None ∨ (∃ e, f y = Some e ∧ e ∉ omap f (l1 ++ x :: l2)) →
  NoDup (omap f (l1 ++ y :: l2)).
Proof.
  rewrite !omap_app. csimpl. intros Hnd Hy.
  assert (NoDup (omap f l1 ++ omap f l2)) as Hrest.
  { destruct (f x); [|done].
    apply NoDup_app in Hnd as (H1 & Hdisj & [Hx H2]%NoDup_cons).
    apply NoDup_app. split; [done|]. split; [|done].
    intros z Hz Hin. apply (Hdisj z Hz). by right. }
  destruct Hy as [->|[->|(e & -> & Hout)]]; [done|done|].
  assert ((e ∉ omap f l1) ∧ (e ∉ omap f l2)) as (Hout1 & Hout2).
  { split; intros Hin; apply Hout, elem_of_app; [by left|right].
    destruct (f x); [by right|done]. }
  apply NoDup_app in Hrest as (H1 & Hdisj & H2).
  apply NoDup_app. split; [done|]. split.
  - intros z Hz [->|Hin]%elem_of_cons; [done|]. by apply (Hdisj z Hz).
  - by apply NoDup_cons.
Qed.

Lemma NoDup_omap_filter {A B C} (f : B → option C) (g : A → B) (p : A → bool)
    (l : list A) :
  NoDup (omap f (map g l)) → NoDup (omap f (map g (List.filter p l))).
Proof.
  induction l as [|a rest IH]; csimpl; [done|].
  assert (∀ c, c ∈ omap f (map g (List.filter p rest)) → c ∈ omap f (map g rest))
    as Hsub.
  { intros c (b & Hb & Hc)%list_elem_of_omap.
    apply list_elem_of_omap. exists b. split; [|done].
    apply list_elem_of_In, in_map_iff in Hb as (a' & <- & Ha').
    apply filter_In in Ha' as [Ha' _].
    apply list_elem_of_In, in_map. done. }
  intros Hnd. destruct (p a); csimpl.
  - destruct (f (g a)) as [c|]; [|by apply IH].
    apply NoDup_cons in Hnd as [Hout Hnd].
    apply NoDup_cons. split; [|by apply IH].
    intros Hin. by apply Hout, Hsub.
  - apply IH. destruct (f (g a)); [|done]. by apply NoDup_cons in Hnd as [_ ?].
Qed.

Lemma stored_user_by_id s user :
  UserService.Invariant s →
  user ∈ UserService.getAllUsers s →
  UserService.getUserById (UserService.id user) s = Some user.
Proof.
  intros (Hnd & Hids & _) Hin. unfold UserService.getAllUsers, JSMap.values in Hin.
  apply list_elem_of_fmap in Hin as ([k u] & -> & Hin). simpl.
  destruct (Hids _ _ Hin) as [-> _]. by apply map_elem_of_get.
Qed.

Lemma updateUser_listing id updates s user :
  UserService.getUserById id s = Some user →
  ∃ before after,
    UserService.getAllUsers s = (before ++ user :: after)%list ∧
    UserService.getAllUsers (UserService.updateUser id updates s).2
      = (before ++ UserService.merge user updates id :: after)%list.
Proof.
  unfold UserService.getUserById, UserService.updateUser, UserService.getAllUsers,
    JSMap.values.
  intros Hget. rewrite Hget. cbn [snd UserService.users].
  destruct (map_set_existing _ _ (UserService.merge user updates id) _ Hget)
    as (before & after & Hm & ->).
  rewrite Hm. exists (map snd before), (map snd after).
  rewrite !map_app. split; reflexivity.
Qed.

Lemma updateUser_keeps_emails_unique s id updates :
  UserService.Invariant s →
  UniqueEmails s →
  (UserService.with_email updates = None ∨
   UserService.with_email updates = Some None ∨
   ∃ e, UserService.with_email updates = Some (Some e) ∧
        (UserService.findByEmail e s = None ∨
         ∃ existing, UserService.findByEmail e s = Some existing ∧
                     UserService.id existing = id)) →
  UniqueEmails (UserService.updateUser id updates s).2.
Proof.
  intros Hinv Huniq He'.
  destruct (UserService.getUserById id s) as [user|] eqn:Hget.
  - destruct (updateUser_listing id updates s user Hget)
      as (before & after & Hold & Hnew).
    unfold UniqueEmails in *. rewrite Hnew. rewrite Hold in Huniq.
    apply (NoDup_omap_replace _ _ _ _ _ Huniq). simpl.
    destruct He' as [->|[->|(e & -> & [Hnone|(existing & Hsome & Hid)])]]; simpl.
    + by left.
    + right. by left.
    + right. right. exists e. split; [done|]. rewrite <- Hold.
      by apply findByEmail_None.
    + left. apply findByEmail_Some in Hsome as [Hin Hmail].
      pose proof (stored_user_by_id s existing Hinv Hin) as Hst.
      rewrite Hid, Hget in Hst. injection Hst as ->. done.
  - unfold UserService.updateUser. unfold UserService.getUserById in Hget.
    by rewrite Hget.
Qed.

Lemma users_create_run now name email amb (w : World UserService.State) :
  UsersRouter.create now name email amb w =
    match UserService.findByEmail email (app w) with
    | Some _ => (Throw (UsersRouter.already_exists email), w)
    | None =>
        (Ok (UserService.createUser now name email (app w)).1,
         {| handlerCalls := handlerCalls w;
            app := (UserService.createUser now name email (app w)).2 |})
    end.
Proof.
  unfold UsersRouter.create, bind, reading, running.
  by destruct (UserService.findByEmail email (app w)).
Qed.

(** What [update] does once its email check has passed. *)
Lemma users_update_run id name email amb (w : World UserService.State) :
  let updates :=
    {| UserService.with_id := None; UserService.with_name := name;
       UserService.with_email := email; UserService.with_createdAt := None |} in
  let after :=
    (match (UserService.updateUser id updates (app w)).1 with
     | Some user => Ok user
     | None => Throw (UsersRouter.not_found id)
     end,
     {| handlerCalls := handlerCalls w;
        app := (UserService.updateUser id updates (app w)).2 |}) in
  UsersRouter.update id name email amb w =
    match JS.or_null (mjoin email) with
    | Some e =>
        match UserService.findByEmail e (app w) with
        | Some existing =>
            if String.eqb (UserService.id existing) id then after
            else (Throw (UsersRouter.already_exists e), w)
        | None => after
        end
    | None => after
    end.
Proof.
  cbv zeta. unfold UsersRouter.update, bind, reading, running.
  destruct (JS.or_null (mjoin email)) as [e|]; simpl.
  - destruct (UserService.findByEmail e (app w)) as [existing|]; simpl.
    + destruct (String.eqb (UserService.id existing) id); simpl; [|done].
      by destruct (UserService.updateUser id _ (app w)) as [[user|] s'].
    + by destruct (UserService.updateUser id _ (app w)) as [[user|] s'].
  - by destruct (UserService.updateUser id _ (app w)) as [[user|] s'].
Qed.

Lemma users_delete_run id amb (w : World UserService.State) :
  UsersRouter.delete id amb w =
    (if (UserService.deleteUser id (app w)).1 then Ok true
     else Throw (UsersRouter.not_found id),
     {| handlerCalls := handlerCalls w; app := (UserService.deleteUser id (app w)).2 |}).
Proof.
  unfold UsersRouter.delete, bind, running. simpl.
  by destruct (JSMap.has (UserService.users (app w)) id).
Qed.

(** X8.  The users router keeps emails unique among the users that have
    one.  On a service in its invariant whose stored users with an email
    have pairwise different emails, the store left by [create], by
    [update] and by [delete] again has pairwise different emails, whether
    the call succeeds or throws.  The email key of an [update] may be
    missing, hold [undefined] (the stored email is then erased, and the
    user counts as having none) or hold a string, which is not empty (the
    schema ensures it). *)
Theorem users_router_keeps_emails_unique :
  ∀ (now : Z) (s : UserService.State) (amb : option AmbientContext) (calls : nat),
    UserService.Invariant s →
    UniqueEmails s →
    let w := {| handlerCalls := calls; app := s |} in
    (∀ name email, UniqueEmails (app (UsersRouter.create now name email amb w).2)) ∧
    (∀ id name email,
        email ≠ Some (Some "") →
        UniqueEmails (app (UsersRouter.update id name email amb w).2)) ∧
    (∀ id, UniqueEmails (app (UsersRouter.delete id amb w).2)).
Proof.
  intros now s amb calls Hinv Huniq. cbv zeta. split; [|split].
  - intros name email. rewrite users_create_run. simpl.
    destruct (UserService.findByEmail email s) as [existing|] eqn:Hfind; [done|].
    simpl. unfold UniqueEmails, UserService.getAllUsers. simpl.
    rewrite map_set_values_new by (by apply counter_key_fresh).
    rewrite omap_app. apply NoDup_app. split; [done|]. split; [|apply NoDup_singleton].
    intros e He ->%list_elem_of_singleton.
    by apply findByEmail_None in Hfind.
  - intros id name email Hemail.
    pose proof (users_update_run id name email amb {| handlerCalls := calls; app := s |})
      as Hrun. cbv zeta in Hrun. rewrite Hrun. clear Hrun. simpl.
    pose proof (updateUser_keeps_emails_unique s id
                  {| UserService.with_id := None; UserService.with_name := name;
                     UserService.with_email := email;
                     UserService.with_createdAt := None |} Hinv Huniq) as Hupdate.
    simpl in Hupdate.
    destruct email as [[e|]|]; simpl.
    + destruct (String.eqb_spec e "") as [->|Hne]; [done|].
      destruct (UserService.findByEmail e s) as [existing|] eqn:Hfind.
      * destruct (String.eqb_spec (UserService.id existing) id) as [Hid|Hid]; [|done].
        apply Hupdate. right. right. exists e. split; [done|]. right. by exists existing.
      * apply Hupdate. right. right. exists e. split; [done|]. by left.
    + apply Hupdate. right. by left.
    + apply Hupdate. by left.
  - intros id. rewrite users_delete_run. simpl.
    unfold UniqueEmails, UserService.getAllUsers, JSMap.values, JSMap.remove in *.
    by apply NoDup_omap_filter.
Qed.

Lemma sample_two_unique : UniqueEmails SampleService.two.
Proof.
  unfold UniqueEmails. simpl. repeat constructor; concrete_elem_of.
Defined.

Lemma users_router_keeps_emails_unique_witness :
  UniqueEmails
    (app (UsersRouter.update "2" None (Some (Some "ann@example.com")) None
            SampleService_world).2)
  ∧ UniqueEmails
      (app (UsersRouter.update "2" None (Some None) None SampleService_world).2)
  ∧ UniqueEmails
      (app (UsersRouter.create 3000 "Cy" "cy@example.com" None SampleService_world).2).
Proof.
  pose proof (users_router_keeps_emails_unique 3000 SampleService.two None 0
                sample_two_invariant sample_two_unique) as (Hcreate & Hupdate & _).
  split; [|split].
  - apply (Hupdate "2" None (Some (Some "ann@example.com"))). discriminate.
  - apply (Hupdate "2" None (Some None)). discriminate.
  - apply Hcreate.
Defined.

(** An [update] whose email key holds [undefined] skips the check of the
    handler and erases the stored email: after one such call for each of
    the two users, neither has an email. *)
Example users_router_update_erases_email :
  let w1 := (UsersRouter.update "1" None (Some None) None SampleService_world).2 in
  let w2 := (UsersRouter.update "2" None (Some None) None w1).2 in
  map UserService.email (UserService.getAllUsers (app w2)) = [None; None].
Proof. reflexivity. Qed.

Lemma getById_run id amb (w : World UserService.State) :
  UsersRouter.getById id amb w =
    (match UserService.getUserById id (app w) with
     | Some user => Ok user
     | None => Throw (UsersRouter.not_found id)
     end, w).
Proof.
  unfold UsersRouter.getById, bind, reading.
  by destruct (UserService.getUserById id (app w)).
Qed.

Lemma deleteUser_absent id s :
  (UserService.deleteUser id s).1 = false → (UserService.deleteUser id s).2 = s.
Proof.
  unfold UserService.deleteUser, JSMap.has. simpl.
  destruct (JSMap.get (UserService.users s) id) eqn:Hget; [discriminate|].
  intros _. rewrite (map_remove_absent _ _ Hget). apply state_eta.
Qed.

Lemma updateUser_absent id updates s :
  (UserService.updateUser id updates s).1 = None →
  (UserService.updateUser id updates s).2 = s.
Proof.
  unfold UserService.updateUser.
  by destruct (JSMap.get (UserService.users s) id).
Qed.

(** X9.  The users router is all or nothing: [list] never throws, and a
    call of [getById], [create], [update] or [delete] that throws leaves
    the service exactly as it found it (a rejected [create] has not used up
    an id, a rejected [update] has changed no field). *)
Theorem users_router_throw_changes_nothing :
  ∀ (now : Z) (amb : option AmbientContext) (w w' : World UserService.State) (e : Exn),
    (UsersRouter.list amb w = (Ok (UserService.getAllUsers (app w)), w)) ∧
    (∀ id, UsersRouter.getById id amb w = (Throw e, w') → w' = w) ∧
    (∀ name email, UsersRouter.create now name email amb w = (Throw e, w') → w' = w) ∧
    (∀ id name email, UsersRouter.update id name email amb w = (Throw e, w') → w' = w) ∧
    (∀ id, UsersRouter.delete id amb w = (Throw e, w') → w' = w).
Proof.
  intros now amb w w' e. split; [reflexivity|]. split; [|split; [|split]].
  - intros id. rewrite getById_run. by intros [= _ <-].
  - intros name email. rewrite users_create_run.
    destruct (UserService.findByEmail email (app w)); [by intros [= _ <-]|discriminate].
  - intros id name email.
    pose proof (users_update_run id name email amb w) as Hrun. cbv zeta in Hrun.
    rewrite Hrun. clear Hrun.
    assert (∀ updates,
              (match (UserService.updateUser id updates (app w)).1 with
               | Some user => Ok user
               | None => Throw (UsersRouter.not_found id)
               end,
               {| handlerCalls := handlerCalls w;
                  app := (UserService.updateUser id updates (app w)).2 |})
              = (Throw e, w') → w' = w) as Hafter.
    { intros updates.
      destruct (UserService.updateUser id updates (app w)).1 eqn:Hup; [discriminate|].
      rewrite (updateUser_absent _ _ _ Hup), world_eta. by intros [= _ <-]. }
    destruct (JS.or_null (mjoin email)) as [em|]; [|apply Hafter].
    destruct (UserService.findByEmail em (app w)) as [existing|]; [|apply Hafter].
    destruct (String.eqb (UserService.id existing) id); [apply Hafter|].
    by intros [= _ <-].
  - intros id. rewrite users_delete_run.
    destruct (UserService.deleteUser id (app w)).1 eqn:Hdel; [discriminate|].
    rewrite (deleteUser_absent _ _ Hdel), world_eta. by intros [= _ <-].
Qed.

Lemma users_router_throw_changes_nothing_witness :
  (UsersRouter.create 3000 "Ann again" "ann@example.com" None SampleService_world).2
    = SampleService_world.
Proof.
  symmetry.
  refine (proj1 (proj2 (proj2 (users_router_throw_changes_nothing 3000 None
            SampleService_world
            (UsersRouter.create 3000 "Ann again" "ann@example.com" None
               SampleService_world).2
            (UsersRouter.already_exists "ann@example.com"))))
            "Ann again" "ann@example.com" _).
  reflexivity.
Defined.

(** X10.  Through the users router, a user created with a new email can be
    fetched back by the id it was given; once deleted, fetching that id
    throws the not-found error. *)
Theorem users_router_create_get_delete :
  ∀ (now : Z) (name email : string) (amb : option AmbientContext)
    (w : World UserService.State),
    UserService.Invariant (app w) →
    UserService.findByEmail email (app w) = None →
    ∃ user w1 w2,
      UsersRouter.create now name email amb w = (Ok user, w1) ∧
      UserService.name user = Some name ∧ UserService.email user = Some email ∧
      UsersRouter.getById (UserService.id user) amb w1 = (Ok user, w1) ∧
      UsersRouter.delete (UserService.id user) amb w1 = (Ok true, w2) ∧
      UsersRouter.getById (UserService.id user) amb w2
        = (Throw (UsersRouter.not_found (UserService.id user)), w2).
Proof.
  intros now name email amb w Hinv Hfind.
  eexists _, _, _. split.
  { rewrite users_create_run, Hfind. reflexivity. }
  split; [reflexivity|]. split; [reflexivity|]. split.
  { rewrite getById_run. unfold UserService.getUserById. simpl.
    by rewrite map_get_set_eq. }
  split.
  { rewrite users_delete_run. unfold UserService.deleteUser, JSMap.has. simpl.
    rewrite map_get_set_eq. reflexivity. }
  rewrite getById_run. unfold UserService.getUserById. simpl.
  by rewrite map_get_remove_eq.
Qed.

Lemma users_router_create_get_delete_witness :
  ∃ user w1 w2,
    UsersRouter.create 3000 "Cy" "cy@example.com" None SampleService_world = (Ok user, w1) ∧
    UserService.name user = Some "Cy" ∧ UserService.email user = Some "cy@example.com" ∧
    UsersRouter.getById (UserService.id user) None w1 = (Ok user, w1) ∧
    UsersRouter.delete (UserService.id user) None w1 = (Ok true, w2) ∧
    UsersRouter.getById (UserService.id user) None w2
      = (Throw (UsersRouter.not_found (UserService.id user)), w2).
Proof.
  apply (users_router_create_get_delete 3000 "Cy" "cy@example.com" None
           SampleService_world sample_two_invariant).
  reflexivity.
Defined.

(** ** The secured router behind the entry middlewares *)

Section SecuredRoutes.

Variable jwt_verify : string → string → Result TokenPayload.
Variable JWT_SECRET : option string.

Implicit Types (ctx : Ctx) (payload : TokenPayload) (w : World UserService.State)
  (amb : option AmbientContext).

(** The world once tRPC has entered the handler. *)
Local Abbreviation entered w := {| handlerCalls := S (handlerCalls w); app := app w |}.

Lemma secured_deleteUser_run userId ctx amb w :
  SecuredExample.deleteUser userId ctx amb w =
    if bool_decide (Some userId = ctx_userId ctx)
    then (Throw (TRPCError BAD_REQUEST "Cannot delete your own account"), w)
    else
      (if (UserService.deleteUser userId (app w)).1
       then Ok {| SecuredExample.deleted_success := true;
                  SecuredExample.deletedBy := ctx_userId ctx;
                  SecuredExample.deletedUserId := userId |}
       else Throw (TRPCError NOT_FOUND
                     (String.append "User " (String.append userId " not found"))),
       {| handlerCalls := handlerCalls w;
          app := (UserService.deleteUser userId (app w)).2 |}).
Proof.
  unfold SecuredExample.deleteUser, bind, running.
  destruct (bool_decide _); [done|]. simpl.
  by destruct (JSMap.has (UserService.users (app w)) userId).
Qed.

End SecuredRoutes.

(** X11.  No principal can delete its own account through the secured
    router: when the id to delete is the [userId] of the verified token,
    the call is rejected and the store is unchanged, under the
    service-level [protectedProcedure] and, for a caller holding the
    declared permissions, under [permissionProcedure].  When [ctx.headers]
    is absent or can be iterated the handler is entered and [deleteUser]
    throws BAD_REQUEST; when it is the plain object of headers that the
    HTTP entry points pass, the middleware throws the [TypeError] of
    [Object.fromEntries] and the handler is not entered. *)
Theorem secured_deleteUser_refuses_self :
  ∀ (jwt_verify : string → string → Result TokenPayload) (JWT_SECRET : option string)
    (ctx : Ctx) (payload : TokenPayload) (u : string)
    (amb : option AmbientContext) (w : World UserService.State),
    Verified jwt_verify JWT_SECRET ctx payload →
    JS.or_null (userId payload) = Some u →
    let outcome :=
      if iterableHeaders ctx
      then (Throw (TRPCError BAD_REQUEST "Cannot delete your own account"),
            {| handlerCalls := S (handlerCalls w); app := app w |})
      else (Throw TypeError, w) in
    ServiceLevel.protectedProcedure jwt_verify JWT_SECRET ctx
        (next (SecuredExample.deleteUser u)) amb w
      = outcome ∧
    (RouterLevel.hasPermission SecuredExample.deleteUser_permissions
         (default [] (permissions payload)) = true →
     RouterLevel.permissionProcedure jwt_verify JWT_SECRET
         SecuredExample.deleteUser_permissions ctx
         (next (SecuredExample.deleteUser u)) amb w
       = outcome) ∧
    app outcome.2 = app w.
Proof.
  intros jwt_verify JWT_SECRET ctx payload u amb w Hv Hu. cbv zeta.
  destruct (iterableHeaders ctx) eqn:Hit; (split; [|split; [|done]]).
  - rewrite (service_protected_verified _ _ _ _ _ _ _ Hit Hv), Hu.
    unfold next. rewrite secured_deleteUser_run. simpl.
    by rewrite bool_decide_eq_true_2.
  - intros Hhas.
    rewrite (router_permission_verified _ _ _ _ _ _ _ _ Hit Hv), Hu, Hhas.
    unfold next. rewrite secured_deleteUser_run. simpl.
    by rewrite bool_decide_eq_true_2.
  - by apply service_protected_plain.
  - intros _. by apply router_permission_plain.
Qed.

Lemma sample_verified_u1 :
  Verified Sample.verify None (Sample.request "Bearer tok.u1.sig")
    {| userId := Some "u1"; email := None; permissions := Some ["user/read"] |}.
Proof. exists "Bearer tok.u1.sig", "tok.u1.sig". repeat split; reflexivity. Defined.

Lemma sample_verified_incoming_u1 :
  Verified Sample.verify None
    (Sample.incoming {["authorization" := HString "Bearer tok.u1.sig"]})
    {| userId := Some "u1"; email := None; permissions := Some ["user/read"] |}.
Proof. exists "Bearer tok.u1.sig", "tok.u1.sig". repeat split; reflexivity. Defined.

Lemma secured_deleteUser_refuses_self_witness :
  ServiceLevel.protectedProcedure Sample.verify None (Sample.request "Bearer tok.u1.sig")
      (next (SecuredExample.deleteUser "u1")) None SampleService_world
    = (Throw (TRPCError BAD_REQUEST "Cannot delete your own account"),
       {| handlerCalls := 1; app := SampleService.two |})
  ∧
  ServiceLevel.protectedProcedure Sample.verify None
      (Sample.incoming {["authorization" := HString "Bearer tok.u1.sig"]})
      (next (SecuredExample.deleteUser "u1")) None SampleService_world
    = (Throw TypeError, SampleService_world).
Proof.
  split.
  - exact (proj1 (secured_deleteUser_refuses_self Sample.verify None
                    (Sample.request "Bearer tok.u1.sig") _ "u1" None SampleService_world
                    sample_verified_u1 eq_refl)).
  - exact (proj1 (secured_deleteUser_refuses_self Sample.verify None
                    (Sample.incoming {["authorization" := HString "Bearer tok.u1.sig"]})
                    _ "u1" None SampleService_world
                    sample_verified_incoming_u1 eq_refl)).
Defined.

(** ** More on the guarded methods of [UserDAO] *)

Section DaoFacts.

Variable DB : Type.
Variable user_create : string → string → DB → Result User * DB.
Variable user_findUnique_id : string → DB → Result (option User) * DB.
Variable user_findUnique_email : string → DB → Result (option User) * DB.
Variable user_findMany : DB → Result (list User) * DB.
Variable user_update : string → UserUpdate → DB → Result User * DB.
Variable user_delete : string → DB → Result User * DB.

Implicit Types (w : World (AppState DB)) (amb : option AmbientContext)
  (c : AmbientContext).

Lemma checkRequiredPermissions_granted {St} perm c (w : World St) :
  perm ∈ granted c →
  PermissionsGuard.checkRequiredPermissions [perm] (Some c) w = (Ok tt, w).
Proof.
  intros Hin. rewrite checkRequiredPermissions_run. unfold missingPermissions.
  rewrite filter_cons, decide_False by (by intros H; apply H). by rewrite filter_nil.
Qed.

Lemma dao_delete_granted_run id c w :
  "user/delete" ∈ granted c →
  UserDAO.delete DB user_findUnique_id user_delete id (Some c) w =
    match user_findUnique_id id (database (app w)) with
    | (Ok None, d) => (Ok None, queried w d)
    | (Ok (Some _), d) =>
        match user_delete id d with
        | (Ok deleted, d') => (Ok (Some deleted), queried w d')
        | (Throw e, d') => (Throw e, queried w d')
        end
    | (Throw e, d) => (Throw e, queried w d)
    end.
Proof.
  intros Hin. unfold UserDAO.delete, bind.
  rewrite (checkRequiredPermissions_granted _ _ _ Hin).
  unfold UserDAO.getPrisma, UserDAO.query, queried. simpl.
  destruct (user_findUnique_id id (database (app w))) as [[[found|]|e] d]; simpl; try done.
  by destruct (user_delete id d) as [[deleted|e] d'].
Qed.

End DaoFacts.

(** X15.  Outside any ambient context every guarded method of [UserDAO]
    rejects with the unauthenticated failure of the guard and leaves the
    world unchanged, while the two unguarded reads, [findById] and
    [findByEmail], run their query all the same. *)
Theorem dao_outside_context :
  ∀ (DB : Type)
    (user_create : string → string → DB → Result User * DB)
    (user_findUnique_id user_findUnique_email : string → DB → Result (option User) * DB)
    (user_findMany : DB → Result (list User) * DB)
    (user_update : string → UserUpdate → DB → Result User * DB)
    (user_delete : string → DB → Result User * DB)
    (w : World (AppState DB)),
    (∀ name email,
        UserDAO.create DB user_create name email None w = (Throw GuardUnauthenticated, w)) ∧
    UserDAO.findAll DB user_findMany None w = (Throw GuardUnauthenticated, w) ∧
    (∀ id data,
        UserDAO.update DB user_update id data None w = (Throw GuardUnauthenticated, w)) ∧
    (∀ id,
        UserDAO.delete DB user_findUnique_id user_delete id None w
          = (Throw GuardUnauthenticated, w)) ∧
    (∀ id,
        UserDAO.findById DB user_findUnique_id id None w
          = ((user_findUnique_id id (database (app w))).1,
             queried w (user_findUnique_id id (database (app w))).2)) ∧
    (∀ email,
        UserDAO.findByEmail DB user_findUnique_email email None w
          = ((user_findUnique_email email (database (app w))).1,
             queried w (user_findUnique_email email (database (app w))).2)).
Proof.
  intros DB user_create user_findUnique_id user_findUnique_email user_findMany
    user_update user_delete w.
  split; [reflexivity|]. split; [reflexivity|]. split; [reflexivity|].
  split; [reflexivity|]. split.
  - intros id. unfold UserDAO.findById, UserDAO.getPrisma, UserDAO.query, bind, queried.
    simpl. by destruct (user_findUnique_id id _).
  - intros em. unfold UserDAO.findByEmail, UserDAO.getPrisma, UserDAO.query, bind, queried.
    simpl. by destruct (user_findUnique_email em _).
Qed.

(** X16.  [UserDAO.delete] by a caller who may delete looks the row up
    first: when the row is missing it returns null and no delete query is
    issued (the outcome does not depend on the delete query at all); when
    the lookup rejects, so does the method; only a found row is deleted. *)
Theorem dao_delete_missing_row :
  ∀ (DB : Type)
    (user_findUnique_id : string → DB → Result (option User) * DB)
    (user_delete user_delete' : string → DB → Result User * DB)
    (id : string) (c : AmbientContext) (w : World (AppState DB)),
    "user/delete" ∈ granted c →
    (∀ d, user_findUnique_id id (database (app w)) = (Ok None, d) →
          UserDAO.delete DB user_findUnique_id user_delete id (Some c) w
            = (Ok None, queried w d) ∧
          UserDAO.delete DB user_findUnique_id user_delete' id (Some c) w
            = (Ok None, queried w d)) ∧
    (∀ e d, user_findUnique_id id (database (app w)) = (Throw e, d) →
            UserDAO.delete DB user_findUnique_id user_delete id (Some c) w
              = (Throw e, queried w d)) ∧
    (∀ row d deleted d',
        user_findUnique_id id (database (app w)) = (Ok (Some row), d) →
        user_delete id d = (Ok deleted, d') →
        UserDAO.delete DB user_findUnique_id user_delete id (Some c) w
          = (Ok (Some deleted), queried w d')).
Proof.
  intros DB user_findUnique_id user_delete user_delete' id c w Hin.
  split; [|split].
  - intros d Hfind. by rewrite !dao_delete_granted_run, Hfind.
  - intros e d Hfind. by rewrite dao_delete_granted_run, Hfind.
  - intros row d deleted d' Hfind Hdel.
    by rewrite dao_delete_granted_run, Hfind, Hdel.
Qed.

Lemma dao_delete_missing_row_witness :
  UserDAO.delete (list User) Sample.user_findUnique_id Sample.user_delete "9"
      (Some {| principalId := "u2"; granted := ["user/delete"] |}) Sample.table0
    = (Ok None, queried Sample.table0 [Sample.alice]).
Proof.
  refine (proj1 (proj1 (dao_delete_missing_row (list User) Sample.user_findUnique_id
                          Sample.user_delete Sample.user_delete "9"
                          {| principalId := "u2"; granted := ["user/delete"] |}
                          Sample.table0 _) [Sample.alice] _)).
  - concrete_elem_of.
  - reflexivity.
Defined.

(** X17.  [withPermissions(userId, permissions, callback)] decides the
    guard inside the callback by its own [permissions] alone: a
    [UserDAO.delete] wrapped in it is refused when they lack
    [user/delete], even if the enclosing context grants it, and once the
    wrapped call has resolved the enclosing context is in force again. *)
Theorem withPermissions_scopes_the_guard :
  ∀ (DB : Type)
    (user_findUnique_id : string → DB → Result (option User) * DB)
    (user_delete : string → DB → Result User * DB)
    (id userId : string) (permissions : list string)
    (amb : option AmbientContext) (w : World (AppState DB)),
    ("user/delete" ∉ permissions →
       RouterLevel.withPermissions userId permissions
           (λ _, UserDAO.delete DB user_findUnique_id user_delete id) amb w
         = (Throw (GuardAccessDenied ["user/delete"]), w)) ∧
    (∀ (A : Type) (callback : unit → M (AppState DB) A) a w',
       RouterLevel.withPermissions userId permissions callback amb w = (Ok a, w') →
       (let* _ := RouterLevel.withPermissions userId permissions callback in
        PermissionsGuard.current) amb w = (Ok amb, w')).
Proof.
  intros DB user_findUnique_id user_delete id userId permissions amb w. split.
  - intros Hout. unfold RouterLevel.withPermissions, PermissionsGuard.runWithPermissions.
    unfold UserDAO.delete. by apply guard_first.
  - intros A callback a w' Hrun.
    unfold bind. by rewrite Hrun.
Qed.

Lemma withPermissions_scopes_the_guard_witness :
  RouterLevel.withPermissions "u1" ["user/read"]
      (λ _, UserDAO.delete (list User) Sample.user_findUnique_id Sample.user_delete "1")
      (Some {| principalId := "root"; granted := ["user/delete"] |}) Sample.table0
    = (Throw (GuardAccessDenied ["user/delete"]), Sample.table0).
Proof.
  refine (proj1 (withPermissions_scopes_the_guard (list User) Sample.user_findUnique_id
                   Sample.user_delete "1" "u1" ["user/read"]
                   (Some {| principalId := "root"; granted := ["user/delete"] |})
                   Sample.table0) _).
  concrete_elem_of.
Defined.

(** X18.  From the token to the DAO, under the service-level
    [protectedProcedure], for a token that verifies and names a principal.
    When [ctx.headers] is absent or can be iterated: a route whose handler
    calls [UserDAO.findAll] is answered with the rows of the query when the
    token grants [user/read], and a route whose handler calls
    [UserDAO.delete] is refused with access-denied naming [user/delete],
    the database untouched, when the token does not grant it.  When
    [ctx.headers] is the plain object of headers that the HTTP entry points
    pass: both routes are rejected with the [TypeError] of
    [Object.fromEntries], neither handler is entered and the DAO is not
    reached. *)
Theorem protected_route_reaches_dao_guard :
  ∀ (jwt_verify : string → string → Result TokenPayload) (JWT_SECRET : option string)
    (DB : Type)
    (user_findUnique_id : string → DB → Result (option User) * DB)
    (user_findMany : DB → Result (list User) * DB)
    (user_delete : string → DB → Result User * DB)
    (ctx : Ctx) (payload : TokenPayload) (u id : string)
    (amb : option AmbientContext) (w : World (AppState DB)),
    Verified jwt_verify JWT_SECRET ctx payload →
    JS.or_null (userId payload) = Some u →
    let entered := {| handlerCalls := S (handlerCalls w); app := app w |} in
    (iterableHeaders ctx = true →
       ("user/read" ∈ default [] (permissions payload) →
          ServiceLevel.protectedProcedure jwt_verify JWT_SECRET ctx
              (next (λ _, UserDAO.findAll DB user_findMany)) amb w
            = ((user_findMany (database (app w))).1,
               queried entered (user_findMany (database (app w))).2)) ∧
       ("user/delete" ∉ default [] (permissions payload) →
          ServiceLevel.protectedProcedure jwt_verify JWT_SECRET ctx
              (next (λ _, UserDAO.delete DB user_findUnique_id user_delete id)) amb w
            = (Throw (GuardAccessDenied ["user/delete"]), entered))) ∧
    (iterableHeaders ctx = false →
       ServiceLevel.protectedProcedure jwt_verify JWT_SECRET ctx
           (next (λ _, UserDAO.findAll DB user_findMany)) amb w
         = (Throw TypeError, w) ∧
       ServiceLevel.protectedProcedure jwt_verify JWT_SECRET ctx
           (next (λ _, UserDAO.delete DB user_findUnique_id user_delete id)) amb w
         = (Throw TypeError, w)).
Proof.
  intros jwt_verify JWT_SECRET DB user_findUnique_id user_findMany user_delete
    ctx payload u id amb w Hv Hu. cbv zeta. split; intros Hit.
  - rewrite !(service_protected_verified _ _ _ _ _ _ _ Hit Hv), Hu. unfold next. split.
    + intros Hin. unfold UserDAO.findAll, bind.
      rewrite checkRequiredPermissions_granted by done.
      unfold UserDAO.getPrisma, UserDAO.query, queried. simpl.
      by destruct (user_findMany (database (app w))).
    + intros Hout. unfold UserDAO.delete. by apply guard_first.
  - split; by apply service_protected_plain.
Qed.

Lemma protected_route_reaches_dao_guard_witness :
  ServiceLevel.protectedProcedure Sample.verify None (Sample.request "Bearer tok.u1.sig")
      (next (λ _, UserDAO.findAll (list User) Sample.user_findMany)) None Sample.table0
    = (Ok [Sample.alice],
       {| handlerCalls := 2; app := {| prisma := true; database := [Sample.alice] |} |})
  ∧ ServiceLevel.protectedProcedure Sample.verify None
      (Sample.request "Bearer tok.u1.sig")
      (next (λ _, UserDAO.delete (list User) Sample.user_findUnique_id
                    Sample.user_delete "1")) None Sample.table0
    = (Throw (GuardAccessDenied ["user/delete"]),
       {| handlerCalls := 2; app := {| prisma := false; database := [Sample.alice] |} |})
  ∧ ServiceLevel.protectedProcedure Sample.verify None
      (Sample.incoming {["authorization" := HString "Bearer tok.u1.sig"]})
      (next (λ _, UserDAO.findAll (list User) Sample.user_findMany)) None Sample.table0
    = (Throw TypeError, Sample.table0).
Proof.
  pose proof (protected_route_reaches_dao_guard Sample.verify None (list User)
                Sample.user_findUnique_id Sample.user_findMany Sample.user_delete
                (Sample.request "Bearer tok.u1.sig") _ "u1" "1" None Sample.table0
                sample_verified_u1 eq_refl) as [Hiterable _].
  destruct (Hiterable eq_refl) as [Hread Hdelete].
  pose proof (protected_route_reaches_dao_guard Sample.verify None (list User)
                Sample.user_findUnique_id Sample.user_findMany Sample.user_delete
                (Sample.incoming {["authorization" := HString "Bearer tok.u1.sig"]})
                _ "u1" "1" None Sample.table0
                sample_verified_incoming_u1 eq_refl) as [_ Hplain].
  split; [|split].
  - apply Hread. simpl. concrete_elem_of.
  - apply Hdelete. simpl. concrete_elem_of.
  - exact (proj1 (Hplain eq_refl)).
Defined.

(** ** More on the token decoder *)

Lemma split_pieces_no_sep sep s piece :
  piece ∈ JS.split sep s →
  JS.all_chars (λ c, negb (Ascii.eqb c sep)) piece = true.
Proof.
  revert piece. induction s as [|c rest IH]; intros piece; simpl.
  - by intros ->%list_elem_of_singleton.
  - destruct (Ascii.eqb c sep) eqn:Hc.
    + intros [->|Hin]%elem_of_cons; [done|by apply IH].
    + destruct (JS.split sep rest) as [|p ps] eqn:Hsplit.
      * intros ->%list_elem_of_singleton. simpl. by rewrite Hc.
      * intros [->|Hin]%elem_of_cons.
        -- simpl. rewrite Hc. simpl. apply IH. left.
        -- apply IH. by right.
Qed.

Lemma split_join sep s : JS.join (String sep "") (JS.split sep s) = s.
Proof.
  induction s as [|c rest IH]; [reflexivity|]. simpl.
  destruct (Ascii.eqb_spec c sep) as [->|Hne].
  - destruct (JS.split sep rest) as [|p ps] eqn:Hsplit.
    + by destruct (split_nonempty sep rest).
    + change (JS.join (String sep "") ("" :: p :: ps))
        with (String sep (JS.join (String sep "") (p :: ps))).
      by rewrite IH.
  - destruct (JS.split sep rest) as [|p ps] eqn:Hsplit.
    + by destruct (split_nonempty sep rest).
    + rewrite <- IH. by destruct ps.
Qed.

Lemma split_no_sep sep s :
  JS.all_chars (λ c, negb (Ascii.eqb c sep)) s = true → JS.split sep s = [s].
Proof.
  induction s as [|c rest IH]; [reflexivity|]. simpl.
  intros [Hc Hrest]%andb_prop. apply negb_true_iff in Hc. rewrite Hc.
  by rewrite (IH Hrest).
Qed.

Lemma split_app_sep sep a b :
  JS.all_chars (λ c, negb (Ascii.eqb c sep)) a = true →
  JS.split sep (String.append a (String sep b)) = a :: JS.split sep b.
Proof.
  induction a as [|c rest IH]; simpl.
  - intros _. change (String.append "" (String sep b)) with (String sep b).
    simpl. by rewrite Ascii.eqb_refl.
  - intros [Hc Hrest]%andb_prop. apply negb_true_iff in Hc.
    change (String.append (String c rest) (String sep b))
      with (String c (String.append rest (String sep b))).
    simpl. by rewrite Hc, (IH Hrest).
Qed.

(** A header is of the shape [Bearer <token>] exactly when it is the word
    [Bearer], one space, and a token without a space. *)
Lemma bearer_shape authHeader token :
  bearer authHeader token ↔
  authHeader = String.append "Bearer " token ∧
  JS.all_chars (λ c, negb (Ascii.eqb c " ")) token = true.
Proof.
  unfold bearer. split.
  - intros Hsplit. split.
    + by rewrite <- (split_join " " authHeader), Hsplit.
    + apply (split_pieces_no_sep " " authHeader). rewrite Hsplit. right. left.
  - intros [-> Htoken].
    change (String.append "Bearer " token) with (String.append "Bearer" (String " " token)).
    rewrite split_app_sep by reflexivity. by rewrite (split_no_sep _ _ Htoken).
Qed.

(** X19.  [parseAuthHeader] returns a payload for exactly the headers made
    of the word [Bearer], a single space and a token that holds no space
    and that [jwt.verify] accepts under the configured secret; any other
    spelling (another scheme or letter case, a second space before, inside
    or after the token) is answered with null. *)
Theorem parseAuthHeader_accepts_exactly :
  ∀ (jwt_verify : string → string → Result TokenPayload) (JWT_SECRET : option string)
    (authHeader : string) (payload : TokenPayload),
    parseAuthHeader jwt_verify JWT_SECRET (Some authHeader) = Ok (Some payload) ↔
    ∃ token,
      authHeader = String.append "Bearer " token ∧
      JS.all_chars (λ c, negb (Ascii.eqb c " ")) token = true ∧
      jwt_verify token (secret JWT_SECRET) = Ok payload.
Proof.
  intros jwt_verify JWT_SECRET authHeader payload. split.
  - intros Hparse. destruct (bearer_dec authHeader) as [[token Hb]|Hno].
    + rewrite (parseAuthHeader_bearer _ _ _ _ Hb) in Hparse.
      exists token. apply bearer_shape in Hb as [-> Htoken]. split; [done|].
      split; [done|]. destruct (jwt_verify token _); congruence.
    + by rewrite (parseAuthHeader_not_bearer _ _ _ Hno) in Hparse.
  - intros (token & Hshape & Htoken & Hv).
    assert (bearer authHeader token) as Hb by by apply bearer_shape.
    by rewrite (parseAuthHeader_bearer _ _ _ _ Hb), Hv.
Qed.

(** X20.  [extractUserId] and [extractPermissions] never throw, and what
    they return comes from a verified token: a user id is returned exactly
    when the call carries a token that verifies and whose payload holds
    that non-empty [userId]; a non-empty list of permissions is returned
    exactly when it is the [permissions] of such a payload. *)
Theorem extract_only_from_verified_token :
  ∀ (jwt_verify : string → string → Result TokenPayload) (JWT_SECRET : option string)
    (ctx : Ctx),
    (∃ u, extractUserId jwt_verify JWT_SECRET (requestHeaders ctx) = Ok u) ∧
    (∃ ps, extractPermissions jwt_verify JWT_SECRET (requestHeaders ctx) = Ok ps) ∧
    (∀ u, extractUserId jwt_verify JWT_SECRET (requestHeaders ctx) = Ok (Some u) ↔
          ∃ payload, Verified jwt_verify JWT_SECRET ctx payload ∧
                     userId payload = Some u ∧ u ≠ "") ∧
    (∀ ps, ps ≠ [] →
           (extractPermissions jwt_verify JWT_SECRET (requestHeaders ctx) = Ok ps ↔
            ∃ payload, Verified jwt_verify JWT_SECRET ctx payload ∧
                       permissions payload = Some ps)).
Proof.
  intros jwt_verify JWT_SECRET ctx.
  assert (∀ p p', Verified jwt_verify JWT_SECRET ctx p →
                  Verified jwt_verify JWT_SECRET ctx p' → p = p') as Hfun.
  { intros p p' H H'. apply Verified_parse in H, H'. congruence. }
  destruct (credential_cases jwt_verify JWT_SECRET ctx) as [Hno|[payload Hv]].
  - rewrite (NoCredential_userId _ _ _ Hno), (NoCredential_permissions _ _ _ Hno).
    split; [by eexists|]. split; [by eexists|]. split.
    + intros u. split; [discriminate|]. intros (p & Hp & _).
      apply Verified_parse in Hp. apply NoCredential_parse in Hno. congruence.
    + intros ps Hps. split; [congruence|]. intros (p & Hp & _).
      apply Verified_parse in Hp. apply NoCredential_parse in Hno. congruence.
  - rewrite (Verified_userId _ _ _ _ Hv), (Verified_permissions _ _ _ _ Hv).
    split; [by eexists|]. split; [by eexists|]. split.
    + intros u. split.
      * intros [= Hu]. exists payload. split; [done|]. by apply or_null_Some.
      * intros (p & Hp & Hu & Hne). rewrite (Hfun _ _ Hv Hp). f_equal.
        by apply or_null_Some.
    + intros ps Hps. split.
      * intros [= Hd]. exists payload. split; [done|].
        destruct (permissions payload); simpl in Hd; congruence.
      * intros (p & Hp & Hperm). by rewrite (Hfun _ _ Hv Hp), Hperm.
Qed.

Lemma extract_only_from_verified_token_witness :
  extractPermissions Sample.verify None
    (requestHeaders (Sample.request "Bearer tok.u1.sig")) = Ok ["user/read"].
Proof.
  apply (proj2 (proj2 (proj2 (extract_only_from_verified_token Sample.verify None
                                (Sample.request "Bearer tok.u1.sig"))))).
  - discriminate.
  - eexists. split; [apply sample_verified_u1 | reflexivity].
Defined.

(** ** Start-up of the services *)

(** X21.  [ensureServicesInitialized] initializes once: after a call that
    resolved, the flag is set and a further call resolves without touching
    the container; a call that rejected has run while the flag was down and
    leaves it down, so the next call tries again; and after
    [shutdownServices] the next call runs [initializeServices] anew. *)
Theorem ensureServicesInitialized_once :
  ∀ (Services : Type)
    (ServicesContext_initialize ServicesContext_waitForInit
       : Services → Result unit * Services)
    (st st' : Init.State Services),
    let ensure := Init.ensureServicesInitialized Services
                    ServicesContext_initialize ServicesContext_waitForInit in
    let initializeServices := Init.initializeServices Services
                    ServicesContext_initialize ServicesContext_waitForInit in
    (ensure st = (Ok tt, st') →
       Init.initialized Services st' = true ∧ ensure st' = (Ok tt, st')) ∧
    (∀ e, ensure st = (Throw e, st') →
       Init.initialized Services st = false ∧
       Init.initialized Services st' = false ∧
       (ensure st').1 = (initializeServices (Init.services Services st')).1) ∧
    (ensure (Init.shutdownServices Services st).2).1
      = (initializeServices (Init.services Services st)).1.
Proof.
  intros Services ini wait st st'. cbv zeta.
  unfold Init.ensureServicesInitialized. split; [|split].
  - destruct (Init.initialized Services st) eqn:Hflag; simpl.
    + intros [= <-]. by rewrite Hflag.
    + destruct (Init.initializeServices _ _ _ _) as [[[]|e] s']; [|discriminate].
      by intros [= <-].
  - intros e. destruct (Init.initialized Services st) eqn:Hflag; simpl; [discriminate|].
    destruct (Init.initializeServices _ _ _ (Init.services Services st))
      as [[[]|e'] s']; [discriminate|].
    intros [= -> <-]. simpl. split; [done|]. split; [done|].
    by destruct (Init.initializeServices _ _ _ s') as [[[]|e''] s''].
  - simpl. by destruct (Init.initializeServices _ _ _ _) as [[[]|e] s'].
Qed.

(** X22.  [DatabaseService] makes its Prisma client lazily and once:
    [getPrisma] called again returns the same client and constructs
    nothing; [initialize] without a [DATABASE_URL] (unset or empty) changes
    nothing and constructs no client; [shutdown] without a client changes
    nothing; a [shutdown] that resolves forgets the client, so that the
    next [getPrisma] constructs a new one, while one whose [$disconnect]
    rejects keeps it. *)
Theorem databaseService_lazy_client :
  ∀ (Outside : Type) (connect disconnect : nat → Outside → Result unit * Outside)
    (st : DatabaseService.State Outside),
    let getPrisma := DatabaseService.getPrisma Outside in
    let shutdown := DatabaseService.shutdown Outside disconnect in
    getPrisma (getPrisma st).2 = getPrisma st ∧
    (∀ url, JS.truthy url = false →
            DatabaseService.initialize Outside connect url st = (Ok tt, st)) ∧
    (DatabaseService.prisma Outside st = None → shutdown st = (Ok tt, st)) ∧
    (∀ st', shutdown st = (Ok tt, st') →
            DatabaseService.prisma Outside st' = None ∧
            DatabaseService.constructed Outside (getPrisma st').2
              = S (DatabaseService.constructed Outside st)) ∧
    (∀ e st', shutdown st = (Throw e, st') →
              DatabaseService.prisma Outside st' = DatabaseService.prisma Outside st ∧
              is_Some (DatabaseService.prisma Outside st')).
Proof.
  intros Outside connect disconnect st. cbv zeta.
  unfold DatabaseService.getPrisma, DatabaseService.shutdown, DatabaseService.initialize.
  split; [|split; [|split; [|split]]].
  - destruct (DatabaseService.prisma Outside st) eqn:Hp; simpl; by rewrite ?Hp.
  - by intros url ->.
  - by intros ->.
  - intros st'. destruct (DatabaseService.prisma Outside st) as [client|] eqn:Hp.
    + destruct (disconnect client _) as [[[]|e] o]; [|discriminate].
      intros [= <-]. by simpl.
    + intros [= <-]. rewrite Hp. by split.
  - intros e st'. destruct (DatabaseService.prisma Outside st) as [client|] eqn:Hp;
      [|discriminate].
    destruct (disconnect client _) as [[[]|e'] o]; [discriminate|].
    intros [= _ <-]. simpl. by split; [|eexists].
Qed.

(** ** What a handler can rely on *)

(** X23.  Behind [protectedProcedure] (in both revisions) and behind
    [permissionProcedure] a handler always finds [ctx.userId]: every call
    is either turned away before the handler, with the world unchanged, or
    enters the handler with a context whose [userId] is a non-empty string,
    the one of the verified token. *)
Theorem handler_always_has_userId :
  ∀ (jwt_verify : string → string → Result TokenPayload) (JWT_SECRET : option string)
    (St Data : Type) (requiredPermissions : list string)
    (ctx : Ctx) (handler : Ctx → M St Data) (amb : option AmbientContext) (w : World St),
    let entersWithUserId (run : Result Data * World St) :=
      (∃ e, run = (Throw e, w)) ∨
      ∃ payload u ctx' amb',
        Verified jwt_verify JWT_SECRET ctx payload ∧
        userId payload = Some u ∧ u ≠ "" ∧
        ctx_userId ctx' = Some u ∧
        run = next handler ctx' amb' w in
    entersWithUserId
      (ServiceLevel.protectedProcedure jwt_verify JWT_SECRET ctx (next handler) amb w) ∧
    entersWithUserId
      (RouterLevel.protectedProcedure jwt_verify JWT_SECRET ctx (next handler) amb w) ∧
    entersWithUserId
      (RouterLevel.permissionProcedure jwt_verify JWT_SECRET requiredPermissions ctx
         (next handler) amb w).
Proof.
  intros jwt_verify JWT_SECRET St Data required ctx handler amb w. cbv zeta.
  destruct (iterableHeaders ctx) eqn:Hit; cycle 1.
  { rewrite (service_protected_plain _ _ _ _ _ _ Hit),
      (router_protected_plain _ _ _ _ _ _ Hit),
      (router_permission_plain _ _ _ _ _ _ _ Hit).
    repeat split; left; by eexists. }
  destruct (credential_cases jwt_verify JWT_SECRET ctx) as [Hno|[payload Hv]].
  - rewrite (service_protected_rejects _ _ _ _ _ _ Hit Hno),
      (router_protected_rejects _ _ _ _ _ _ Hit Hno),
      (router_permission_rejects _ _ _ _ _ _ _ Hit Hno).
    repeat split; left; by eexists.
  - rewrite (service_protected_verified _ _ _ _ _ _ _ Hit Hv),
      (router_protected_verified _ _ _ _ _ _ _ Hit Hv),
      (router_permission_verified _ _ _ _ _ _ _ _ Hit Hv).
    destruct (JS.or_null (userId payload)) as [u|] eqn:Hu.
    + apply or_null_Some in Hu as [Hu Hne].
      assert (∀ (run : Result Data * World St) ctx' amb',
                ctx_userId ctx' = Some u →
                run = next handler ctx' amb' w →
                (∃ e, run = (Throw e, w)) ∨
                ∃ payload u ctx' amb',
                  Verified jwt_verify JWT_SECRET ctx payload ∧
                  userId payload = Some u ∧ u ≠ "" ∧
                  ctx_userId ctx' = Some u ∧
                  run = next handler ctx' amb' w) as Henter.
      { intros run ctx' amb' Hctx Hrun. right. by exists payload, u, ctx', amb'. }
      split; [|split].
      * eapply Henter; [|reflexivity]; reflexivity.
      * eapply Henter; [|reflexivity]; reflexivity.
      * destruct (RouterLevel.hasPermission _ _); [|left; by eexists].
        eapply Henter; [|reflexivity]; reflexivity.
    + repeat split; left; by eexists.
Qed.
